(** * Dorkwright: URL classification, crawl loop, file name resolution

    A shallow embedding of [dorkwright.py].  Python strings are lists of
    Unicode code points ([list N]); bytes are numbers below 256.  The
    functions of the Python standard library that the program calls
    ([str] methods, [re.search], [urllib.parse.urlparse], [unquote],
    [os.path.splitext]) are modelled in the first modules; the program's
    own functions follow with the names they have in the source. *)

From Stdlib Require Import ZArith NArith List Ascii String Lia Bool.
From Stdlib Require Import DecimalN.
From stdpp Require Import base tactics option list gmap sorting.

Local Open Scope N_scope.

(** ** Python strings *)

Abbreviation pystr := (list N).

(** [lit "abc"] is the Python literal ["abc"]. *)
Definition lit (s : string) : pystr :=
  map N_of_ascii (list_ascii_of_string s).

Module Str.

Definition in_range (lo hi c : N) : bool := (lo <=? c) && (c <=? hi).

Definition is_upper_ascii (c : N) : bool := in_range 65 90 c.
Definition is_lower_ascii (c : N) : bool := in_range 97 122 c.
Definition is_digit (c : N) : bool := in_range 48 57 c.

(** [c in cs] for a one-character string [c]. *)
Definition mem (c : N) (cs : pystr) : bool := existsb (N.eqb c) cs.

(** [str.lower].  Outside ASCII only the two code points whose lower
    case contains an ASCII letter are mapped (KELVIN SIGN to [k], and
    LATIN CAPITAL LETTER I WITH DOT ABOVE to [i] and a combining dot);
    Python maps every other cased code point to code points outside
    ASCII, which no test in this program tells from the original. *)
Definition lower_char (c : N) : pystr :=
  if is_upper_ascii c then [c + 32]
  else if c =? 8490 then [107]
  else if c =? 304 then [105; 775]
  else [c].

Definition lower (s : pystr) : pystr := flat_map lower_char s.

(** [str.upper] on ASCII.  A code point outside ASCII is left as it
    is: its Python upper case is either outside ASCII or contains a
    letter that no reserved device name has, so membership of the
    result in [reserved_names] is the same. *)
Definition upper_char (c : N) : N :=
  if is_lower_ascii c then c - 32 else c.

Definition upper (s : pystr) : pystr := map upper_char s.

Fixpoint startswith (s p : pystr) {struct p} : bool :=
  match p, s with
  | [], _ => true
  | a :: p', b :: s' => (a =? b) && startswith s' p'
  | _ :: _, [] => false
  end.

Definition endswith (s p : pystr) : bool := startswith (rev s) (rev p).

(** [sub in s] *)
Fixpoint contains (sub s : pystr) : bool :=
  startswith s sub ||
  match s with
  | [] => false
  | _ :: t => contains sub t
  end.

(** [s.find(c)]: index of the first [c], [-1] when there is none. *)
Fixpoint find (c : N) (s : pystr) : Z :=
  match s with
  | [] => (-1)%Z
  | a :: t =>
      if a =? c then 0%Z
      else let i := find c t in if (i <? 0)%Z then (-1)%Z else (i + 1)%Z
  end.

(** [s.rfind(c)]: index of the last [c], [-1] when there is none. *)
Fixpoint rfind (c : N) (s : pystr) : Z :=
  match s with
  | [] => (-1)%Z
  | a :: t =>
      let i := rfind c t in
      if (0 <=? i)%Z then (i + 1)%Z
      else if a =? c then 0%Z else (-1)%Z
  end.

(** The slice [s[i:j]] for [0 <= i]. *)
Definition slice (s : pystr) (i j : Z) : pystr :=
  take (Z.to_nat j - Z.to_nat i)%nat (drop (Z.to_nat i) s).

(** [s.split(c, 1)] when [c in s]: the text before and after the first
    [c]. *)
Fixpoint split_once (c : N) (s : pystr) : option (pystr * pystr) :=
  match s with
  | [] => None
  | a :: t =>
      if a =? c then Some ([], t)
      else match split_once c t with
           | Some (l, r) => Some (a :: l, r)
           | None => None
           end
  end.

(** The longest prefix whose characters satisfy [p], and the rest. *)
Fixpoint take_while (p : N -> bool) (s : pystr) : pystr :=
  match s with
  | [] => []
  | c :: t => if p c then c :: take_while p t else []
  end.

Fixpoint drop_while (p : N -> bool) (s : pystr) : pystr :=
  match s with
  | [] => []
  | c :: t => if p c then drop_while p t else s
  end.

Definition lstrip (p : N -> bool) (s : pystr) : pystr := drop_while p s.

Definition rstrip (p : N -> bool) (s : pystr) : pystr :=
  rev (lstrip p (rev s)).

(** [s.strip(chars)], [p] deciding membership in [chars]. *)
Definition strip (p : N -> bool) (s : pystr) : pystr :=
  rstrip p (lstrip p s).

(** The code points for which [str.isspace] holds: what [s.strip()]
    removes. *)
Definition is_space (c : N) : bool :=
  in_range 9 13 c || in_range 28 32 c || (c =? 133) || (c =? 160)
  || (c =? 5760) || in_range 8192 8202 c || (c =? 8232) || (c =? 8233)
  || (c =? 8239) || (c =? 8287) || (c =? 12288).

(** [s.replace(c, d)] for one-character strings. *)
Definition replace (c d : N) (s : pystr) : pystr :=
  map (fun a => if a =? c then d else a) s.

(** [str(n)] for a non-negative integer: its decimal digits. *)
Fixpoint of_uint (d : Decimal.uint) : pystr :=
  match d with
  | Decimal.Nil => []
  | Decimal.D0 d => 48 :: of_uint d
  | Decimal.D1 d => 49 :: of_uint d
  | Decimal.D2 d => 50 :: of_uint d
  | Decimal.D3 d => 51 :: of_uint d
  | Decimal.D4 d => 52 :: of_uint d
  | Decimal.D5 d => 53 :: of_uint d
  | Decimal.D6 d => 54 :: of_uint d
  | Decimal.D7 d => 55 :: of_uint d
  | Decimal.D8 d => 56 :: of_uint d
  | Decimal.D9 d => 57 :: of_uint d
  end.

Definition of_int (n : N) : pystr := of_uint (N.to_uint n).

(** Python compares strings code point by code point; a proper prefix
    is smaller. *)
Fixpoint leb (s t : pystr) : bool :=
  match s, t with
  | [], _ => true
  | _ :: _, [] => false
  | a :: s', b :: t' => (a <? b) || ((a =? b) && leb s' t')
  end.

Definition le (s t : pystr) : Prop := leb s t = true.

End Str.

(** ** Regular expressions

    The fragment of Python's [re] syntax that the program's patterns
    use, with a backtracking matcher that lists the ways a pattern
    matches at the start of the text in the order Python tries them. *)

Module Re.

Inductive regex :=
| Lit (s : pystr)                              (* literal text *)
| Cls (p : N -> bool)                          (* [...] *)
| Rep (p : N -> bool) (lo : nat) (hi : option nat)
                                               (* [...]{lo,hi} and [...]+, greedy *)
| Opt (r : regex)                              (* r?, greedy *)
| Cat (r1 r2 : regex)
| Alt (r1 r2 : regex)                          (* r1|r2 *)
| Eos                                          (* $ *)
| Grp (r : regex).                             (* ( r ), group 1 *)

(** A way to match: the text left after the match and group 1. *)
Definition outcome : Type := pystr * option pystr.

(** Length of the longest prefix in the class, at most [hi]. *)
Fixpoint run (p : N -> bool) (hi : option nat) (s : pystr) : nat :=
  match hi with
  | Some O => O
  | _ =>
      match s with
      | c :: t => if p c then S (run p (pred <$> hi) t) else O
      | [] => O
      end
  end.

(** [n, n-1, ..., lo]: the repetition counts a greedy loop tries. *)
Fixpoint counts_down (n lo : nat) : list nat :=
  if (n <? lo)%nat then []
  else match n with
       | O => [O]
       | S m => n :: counts_down m lo
       end.

Fixpoint matches (r : regex) (s : pystr) : list outcome :=
  match r with
  | Lit t => if Str.startswith s t then [(drop (length t) s, None)] else []
  | Cls p =>
      match s with
      | c :: t => if p c then [(t, None)] else []
      | [] => []
      end
  | Rep p lo hi =>
      map (fun k => (drop k s, None)) (counts_down (run p hi s) lo)
  | Opt r1 => matches r1 s ++ [(s, None)]
  | Cat r1 r2 =>
      flat_map
        (fun o1 : outcome =>
           map (fun o2 : outcome =>
                  (o2.1, match o2.2 with Some g => Some g | None => o1.2 end))
               (matches r2 o1.1))
        (matches r1 s)
  | Alt r1 r2 => matches r1 s ++ matches r2 s
  | Eos =>
      (* without re.MULTILINE, $ matches at the end and before a final
         newline *)
      match s with
      | [] => [(s, None)]
      | [c] => if c =? 10 then [(s, None)] else []
      | _ => []
      end
  | Grp r1 =>
      map (fun o : outcome => (o.1, Some (take (length s - length o.1)%nat s)))
          (matches r1 s)
  end.

(** [re.search(r, s)]: the first match at the leftmost position where
    there is one; [Some g] gives [group(1)] ([None] inside when the
    pattern has no group). *)
Fixpoint search (r : regex) (s : pystr) : option (option pystr) :=
  match matches r s with
  | o :: _ => Some o.2
  | [] =>
      match s with
      | [] => None
      | _ :: t => search r t
      end
  end.

(** [bool(re.search(r, s))] *)
Definition test (r : regex) (s : pystr) : bool :=
  match search r s with Some _ => true | None => false end.

(** [re.search(r, s).group(1)] when there is a match. *)
Definition group1 (r : regex) (s : pystr) : option pystr :=
  match search r s with Some (Some g) => Some g | _ => None end.

End Re.

(** ** UTF-8 decoding ([bytes.decode("utf-8", errors)]) *)

Module Utf8.

(** The decoder between two code points, or inside one: [more]
    continuation bytes are still due, the next one within [lo..hi]. *)
Inductive state :=
| Start
| Need (more : nat) (acc lo hi : N).

(** What a byte does at the start of a code point: it is a code point
    of its own, opens a sequence, or is invalid ([None] emitted). *)
Definition lead (b : N) : list (option N) * state :=
  if b <? 128 then ([Some b], Start)
  else if Str.in_range 194 223 b then ([], Need 0 (b - 192) 128 191)
  else if b =? 224 then ([], Need 1 (b - 224) 160 191)
  else if b =? 237 then ([], Need 1 (b - 224) 128 159)
  else if Str.in_range 225 239 b then ([], Need 1 (b - 224) 128 191)
  else if b =? 240 then ([], Need 2 (b - 240) 144 191)
  else if Str.in_range 241 243 b then ([], Need 2 (b - 240) 128 191)
  else if b =? 244 then ([], Need 2 (b - 240) 128 143)
  else ([None], Start).

(** Decoded code points, [None] standing for each invalid or
    truncated sequence. *)
Fixpoint scan (st : state) (bs : list N) : list (option N) :=
  match bs with
  | [] => match st with Start => [] | Need _ _ _ _ => [None] end
  | b :: t =>
      match st with
      | Start => let '(out, st') := lead b in out ++ scan st' t
      | Need more acc lo hi =>
          if Str.in_range lo hi b then
            let acc' := acc * 64 + (b - 128) in
            match more with
            | O => Some acc' :: scan Start t
            | S m => scan (Need m acc' 128 191) t
            end
          else
            let '(out, st') := lead b in None :: out ++ scan st' t
      end
  end.

(** [errors="replace"]: U+FFFD for each invalid sequence. *)
Definition decode_replace (bs : list N) : pystr :=
  map (fun o => match o with Some c => c | None => 65533 end) (scan Start bs).

(** [errors="strict"]: [None] stands for [UnicodeDecodeError]. *)
Definition decode_strict (bs : list N) : option pystr :=
  mapM id (scan Start bs).

End Utf8.

(** ** [urllib.parse] *)

Module Url.

Definition is_hex (c : N) : bool :=
  Str.is_digit c || Str.in_range 65 70 c || Str.in_range 97 102 c.

Definition hex_val (c : N) : N :=
  if Str.is_digit c then c - 48
  else if Str.in_range 65 70 c then c - 55
  else c - 87.

(** [unquote_to_bytes] on ASCII text: [%XX] becomes the byte [XX]; a
    [%] that two hex digits do not follow stays. *)
Fixpoint unquote_to_bytes (s : pystr) : list N :=
  match s with
  | [] => []
  | c :: t =>
      match t with
      | a :: b :: t' =>
          if (c =? 37) && is_hex a && is_hex b
          then (16 * hex_val a + hex_val b) :: unquote_to_bytes t'
          else c :: unquote_to_bytes t
      | _ => c :: unquote_to_bytes t
      end
  end.

(** Each maximal run of ASCII characters is percent-decoded and read
    as UTF-8; the characters between the runs are kept. *)
Fixpoint unquote_runs (ascii_run : pystr) (s : pystr) : pystr :=
  match s with
  | [] => Utf8.decode_replace (unquote_to_bytes ascii_run)
  | c :: t =>
      if c <? 128 then unquote_runs (ascii_run ++ [c]) t
      else Utf8.decode_replace (unquote_to_bytes ascii_run)
             ++ c :: unquote_runs [] t
  end.

(** [unquote(s)], with the default [encoding="utf-8"] and
    [errors="replace"]. *)
Definition unquote (s : pystr) : pystr :=
  if Str.mem 37 s then unquote_runs [] s else s.

Record SplitResult := {
  scheme : pystr;
  netloc : pystr;
  path : pystr;
  query : pystr;
  fragment : pystr
}.

Record ParseResult := {
  p_scheme : pystr;
  p_netloc : pystr;
  p_path : pystr;
  p_params : pystr;
  p_query : pystr;
  p_fragment : pystr
}.

Definition uses_params : list pystr :=
  [[]; lit "ftp"; lit "hdl"; lit "prospero"; lit "http"; lit "imap";
   lit "https"; lit "shttp"; lit "rtsp"; lit "rtspu"; lit "sip";
   lit "sips"; lit "mms"; lit "sftp"; lit "tel"].

Definition scheme_char (c : N) : bool :=
  Str.is_lower_ascii c || Str.is_upper_ascii c || Str.is_digit c
  || Str.mem c (lit "+-.").

(** [_splitnetloc(url, 2)]: the host part ends at the first of [/?#]. *)
Definition splitnetloc (url : pystr) : pystr * pystr :=
  let is_delim c := Str.mem c (lit "/?#") in
  let rest := drop 2 url in
  (Str.take_while (fun c => negb (is_delim c)) rest,
   Str.drop_while (fun c => negb (is_delim c)) rest).

(** The check of [urlsplit] that raises [ValueError("Invalid IPv6
    URL")] when only one of the two brackets occurs in the host part.
    The library's further checks on a host that has both brackets, and
    its NFKC check of a host outside ASCII, are not modelled: such a
    host is taken to pass. *)
Definition netloc_ok (nl : pystr) : bool :=
  negb ((Str.mem 91 nl && negb (Str.mem 93 nl))
        || (Str.mem 93 nl && negb (Str.mem 91 nl))).

(** [urlsplit(url)]; [None] stands for [ValueError]. *)
Definition urlsplit (url : pystr) : option SplitResult :=
  let url := Str.lstrip (fun c => c <=? 32) url in
  let url := List.filter (fun c => negb (Str.mem c [9; 13; 10])) url in
  let i := Str.find 58 url in
  let '(sch, url) :=
    if (0 <? i)%Z
       && match url with
          | c :: _ => Str.is_lower_ascii c || Str.is_upper_ascii c
          | [] => false
          end
       && forallb scheme_char (take (Z.to_nat i) url)
    then (Str.lower (take (Z.to_nat i) url), drop (Z.to_nat i + 1) url)
    else ([], url) in
  let '(nl, url) :=
    if Str.startswith url (lit "//") then splitnetloc url else ([], url) in
  if negb (netloc_ok nl) then None
  else
    let '(url, frag) :=
      match Str.split_once 35 url with
      | Some (u, f) => (u, f)
      | None => (url, [])
      end in
    let '(url, qry) :=
      match Str.split_once 63 url with
      | Some (u, q) => (u, q)
      | None => (url, [])
      end in
    Some {| scheme := sch; netloc := nl; path := url;
            query := qry; fragment := frag |}.

(** [_splitparams(url)], called when [';' in url]. *)
Definition splitparams (url : pystr) : pystr * pystr :=
  if Str.mem 47 url then
    let j := Str.rfind 47 url in
    let i := Str.find 59 (drop (Z.to_nat j) url) in
    if (i <? 0)%Z then (url, [])
    else (take (Z.to_nat (j + i)) url, drop (Z.to_nat (j + i) + 1) url)
  else
    let i := Str.find 59 url in
    (take (Z.to_nat i) url, drop (Z.to_nat i + 1) url).

(** [urlparse(url)]; [None] stands for [ValueError]. *)
Definition urlparse (url : pystr) : option ParseResult :=
  match urlsplit url with
  | None => None
  | Some r =>
      let '(url, params) :=
        if bool_decide (scheme r ∈ uses_params) && Str.mem 59 (path r)
        then splitparams (path r)
        else (path r, []) in
      Some {| p_scheme := scheme r; p_netloc := netloc r; p_path := url;
              p_params := params; p_query := query r;
              p_fragment := fragment r |}
  end.

End Url.

(** ** [os.path] (POSIX flavour) *)

Module Path.

(** [os.path.splitext(p)] *)
Definition splitext (p : pystr) : pystr * pystr :=
  let sepIndex := Str.rfind 47 p in
  let dotIndex := Str.rfind 46 p in
  if (sepIndex <? dotIndex)%Z
     && existsb (fun c => negb (c =? 46)) (Str.slice p (sepIndex + 1) dotIndex)
  then (take (Z.to_nat dotIndex) p, drop (Z.to_nat dotIndex) p)
  else (p, []).

(** [os.path.basename(p)] *)
Definition basename (p : pystr) : pystr :=
  drop (Z.to_nat (Str.rfind 47 p + 1)) p.

End Path.

(** ** The program *)

(** *** URL classification *)

Definition ext_char (c : N) : bool := Str.is_lower_ascii c || Str.is_digit c.

(** [r"\.[a-z0-9]{2,5}$"] *)
Definition ext_at_end : Re.regex :=
  Re.Cat (Re.Lit (lit ".")) (Re.Cat (Re.Rep ext_char 2%nat (Some 5%nat)) Re.Eos).

(** [r"\.[a-z0-9]{2,5}[?#]"] *)
Definition ext_before_delim : Re.regex :=
  Re.Cat (Re.Lit (lit "."))
    (Re.Cat (Re.Rep ext_char 2%nat (Some 5%nat))
            (Re.Cls (fun c => Str.mem c (lit "?#")))).

(** [is_file_link(url)]; [None] when [urlparse] raises [ValueError]. *)
Definition is_file_link (url : pystr) : option bool :=
  let url_lower := Str.lower url in
  match Url.urlparse url_lower with
  | None => None
  | Some parsed =>
      let path := Url.p_path parsed in
      if bool_decide (path = []) || Str.endswith path (lit "/") then Some false
      else if Re.test ext_at_end path then Some true
      else if Re.test ext_before_delim url_lower then Some true
      else Some false
  end.

(** [r"[?&](?:q|url)=([^&]+)"] *)
Definition wrapped_target : Re.regex :=
  Re.Cat (Re.Cls (fun c => Str.mem c (lit "?&")))
    (Re.Cat (Re.Alt (Re.Lit (lit "q")) (Re.Lit (lit "url")))
       (Re.Cat (Re.Lit (lit "="))
               (Re.Grp (Re.Rep (fun c => negb (c =? 38)) 1%nat None)))).

(** [clean_google_url(url)]; [None] is Python's [None]. *)
Definition clean_google_url (url : pystr) : option pystr :=
  match
    (if Str.contains (lit "/url?q=") url || Str.contains (lit "/url?url=") url
     then Re.group1 wrapped_target url
     else None)
  with
  | Some target => Some (Url.unquote target)
  | None => if Str.startswith url (lit "http") then Some url else None
  end.

(** *** File names *)

Definition reserved_names : list pystr :=
  [lit "CON"; lit "PRN"; lit "AUX"; lit "NUL";
   lit "COM1"; lit "COM2"; lit "COM3"; lit "COM4"; lit "COM5";
   lit "COM6"; lit "COM7"; lit "COM8"; lit "COM9";
   lit "LPT1"; lit "LPT2"; lit "LPT3"; lit "LPT4"; lit "LPT5";
   lit "LPT6"; lit "LPT7"; lit "LPT8"; lit "LPT9"].

(** The characters of [invalid_chars], and the double quote among
    them. *)
Definition invalid_chars : pystr := lit "<>:" ++ [34] ++ lit "|?*".

Definition sanitize_filename (filename : pystr) : pystr :=
  let filename :=
    fold_left (fun f char => Str.replace char 95 f) invalid_chars filename in
  let filename := Str.replace 92 95 (Str.replace 47 95 filename) in
  let filename := List.filter (fun char => 32 <=? char) filename in
  let filename := Str.strip (fun c => Str.mem c (lit ". ")) filename in
  let filename := if bool_decide (filename = []) then lit "file" else filename in
  let name_without_ext := Str.upper (Path.splitext filename).1 in
  if bool_decide (name_without_ext ∈ reserved_names)
  then 95 :: filename
  else filename.

(** *** The crawler ([extract_file_links])

    The browser is an input of the model: for each page number, what
    the page gave.  The consent and CAPTCHA steps only wait and click;
    an exception in them, in [goto] or in reading the anchors is
    [Page_error]. *)

Inductive page :=
| Page_error
    (* an exception before the filter loop: [except Exception: continue] *)
| Page_shown (links : list pystr) (has_next : option bool).
    (* the [href] of every anchor, and the probe for [a#pnnext];
       [None] when the probe raises *)

Record crawl_state := {
  file_links : gset pystr;      (* the set [file_links] *)
  visited : list nat            (* page numbers for which [goto] was called *)
}.

(** Lines 88-93: the loop over [links].  The flag is [false] when
    [is_file_link] raised, which leaves the loop with the links added so
    far. *)
Fixpoint filter_links (links : list pystr) (acc : gset pystr)
  : gset pystr * bool :=
  match links with
  | [] => (acc, true)
  | link :: rest =>
      match is_file_link link with
      | None => (acc, false)
      | Some true =>
          match clean_google_url link with
          | Some clean_link =>
              if bool_decide (clean_link = []) then filter_links rest acc
              else filter_links rest ({[ clean_link ]} ∪ acc)
          | None => filter_links rest acc
          end
      | Some false => filter_links rest acc
      end
  end.

(** Lines 27-121: [for page_num in range(max_pages)], [page_nums] being
    the page numbers still to come. *)
Fixpoint crawl_pages (browser : nat -> page) (page_nums : list nat)
    (st : crawl_state) : crawl_state :=
  match page_nums with
  | [] => st
  | page_num :: rest =>
      let seen := visited st ++ [page_num] in
      match browser page_num with
      | Page_error =>
          crawl_pages browser rest
            {| file_links := file_links st; visited := seen |}
      | Page_shown links has_next =>
          let '(acc, completed) := filter_links links (file_links st) in
          let st' := {| file_links := acc; visited := seen |} in
          match completed, has_next with
          | true, Some false => st'                       (* break *)
          | _, _ => crawl_pages browser rest st'
          end
      end
  end.

(** [range(n)] *)
Definition range (n : Z) : list nat := seq 0 (Z.to_nat n).

Definition crawl (browser : nat -> page) (max_pages : Z) : crawl_state :=
  crawl_pages browser (range max_pages) {| file_links := ∅; visited := [] |}.

#[global] Instance str_le_dec : RelDecision Str.le.
Proof. intros s t. unfold Str.le. apply _. Defined.

(** [sorted(xs)] on strings *)
Definition sorted (xs : list pystr) : list pystr := merge_sort Str.le xs.

(** [extract_file_links(query, max_pages, delay)]: [query] and [delay]
    only reach the browser. *)
Definition extract_file_links (browser : nat -> page) (max_pages : Z)
  : list pystr :=
  sorted (elements (file_links (crawl browser max_pages))).

(** *** The downloader ([download_files]) *)

Record response := {
  content_disposition : pystr;   (* the Content-Disposition header, empty when absent *)
  content_type : pystr;          (* the Content-Type header, empty when absent *)
  content_length : option Z;     (* [int] of the content-length header, 0 when
                                    absent; [None] when [int] raises *)
  chunks : list (list N);        (* what [iter_content] yields *)
  stream_ok : bool               (* [false]: the stream breaks after [chunks] *)
}.

Inductive fetched :=
| Request_exception              (* [requests.get] or [raise_for_status] raised *)
| Response (r : response).

(** [r"filename\*=UTF-8''([^;]+)"] *)
Definition filename_star : Re.regex :=
  Re.Cat (Re.Lit (lit "filename*=UTF-8''"))
         (Re.Grp (Re.Rep (fun c => negb (c =? 59)) 1%nat None)).

Definition is_quote (c : N) : bool := (c =? 34) || (c =? 39).

(** The pattern of line 309: [filename=], an optional quote of either
    kind, and in group 1 one or more characters that are neither a
    quote nor a semicolon. *)
Definition filename_plain : Re.regex :=
  Re.Cat (Re.Lit (lit "filename="))
    (Re.Cat (Re.Opt (Re.Cls is_quote))
            (Re.Grp (Re.Rep (fun c => negb (is_quote c || (c =? 59))) 1%nat None))).

(** [raw.encode("latin-1").decode("utf-8")]; [None] when either step
    raises. *)
Definition latin1_as_utf8 (raw : pystr) : option pystr :=
  if forallb (fun c => c <=? 255) raw then Utf8.decode_strict raw else None.

(** Lines 296-320: the name the server declares; [None] is Python's
    [None]. *)
Definition header_filename (cd : pystr) : option pystr :=
  if bool_decide (cd = []) then None
  else
    match Re.group1 filename_star cd with
    | Some g => Some (Url.unquote g)
    | None =>
        match Re.group1 filename_plain cd with
        | Some g =>
            let raw_filename := Str.strip is_quote g in
            Some (default raw_filename (latin1_as_utf8 raw_filename))
        | None => None
        end
    end.

(** Lines 323-326: the last path segment of the URL; [None] when
    [urlparse] raises. *)
Definition url_filename (url : pystr) : option pystr :=
  match Url.urlparse url with
  | Some parsed => Some (Url.unquote (Path.basename (Url.p_path parsed)))
  | None => None
  end.

Definition mime_to_ext : gmap pystr pystr :=
  list_to_map
    [(lit "application/pdf", lit ".pdf");
     (lit "application/msword", lit ".doc");
     (lit "application/vnd.openxmlformats-officedocument.wordprocessingml.document", lit ".docx");
     (lit "application/vnd.ms-excel", lit ".xls");
     (lit "application/vnd.openxmlformats-officedocument.spreadsheetml.sheet", lit ".xlsx");
     (lit "application/vnd.ms-powerpoint", lit ".ppt");
     (lit "application/vnd.openxmlformats-officedocument.presentationml.presentation", lit ".pptx");
     (lit "application/zip", lit ".zip");
     (lit "application/x-zip-compressed", lit ".zip");
     (lit "text/plain", lit ".txt");
     (lit "text/csv", lit ".csv");
     (lit "image/jpeg", lit ".jpg");
     (lit "image/png", lit ".png");
     (lit "image/gif", lit ".gif")].

(** Lines 329-355: [correct_ext], empty when the type is not in the
    table. *)
Definition expected_ext (ct : pystr) : pystr :=
  let before_semicolon :=
    match Str.split_once 59 ct with Some (l, _) => l | None => ct end in
  let content_type := Str.lower (Str.strip Str.is_space before_semicolon) in
  default [] (mime_to_ext !! content_type).

Definition dynamic_exts : list pystr :=
  [lit ".aspx"; lit ".php"; lit ".jsp"; lit ".cgi"; lit ".asp"].

(** Lines 358-369 *)
Definition reconcile_ext (filename correct_ext : pystr) : pystr :=
  if negb (bool_decide (filename = [])) && negb (bool_decide (correct_ext = []))
  then
    let current_ext := Str.lower (Path.splitext filename).2 in
    if negb (bool_decide (current_ext = correct_ext))
       && bool_decide (current_ext ∈ dynamic_exts)
    then (Path.splitext filename).1 ++ correct_ext
    else filename
  else filename.

(** Lines 296-326: the declared name, or the one from the URL when the
    header gives none; [None] when [urlparse] raises. *)
Definition raw_filename (url : pystr) (r : response) : option pystr :=
  match header_filename (content_disposition r) with
  | Some ((_ :: _) as filename) => Some filename
  | _ => url_filename url
  end.

(** Lines 296-377: the sanitized name for the response to the [idx]-th
    URL; [None] when [urlparse] raises. *)
Definition resolve_filename (url : pystr) (idx : N) (r : response)
  : option pystr :=
  match raw_filename url r with
  | None => None
  | Some filename =>
      let correct_ext := expected_ext (content_type r) in
      let filename := reconcile_ext filename correct_ext in
      let filename :=
        if bool_decide (filename = []) || negb (Str.mem 46 filename)
        then lit "file_" ++ Str.of_int idx ++ correct_ext
        else filename in
      Some (sanitize_filename filename)
  end.

(** The name [f"{base}_{counter}{ext}"] *)
Definition numbered (base ext : pystr) (counter : N) : pystr :=
  base ++ lit "_" ++ Str.of_int counter ++ ext.

(** Lines 385-388: the [while os.path.exists(output_path)] loop, run for
    at most [fuel] rounds. *)
Fixpoint free_name (fuel : nat) (taken : gset pystr) (base ext : pystr)
    (counter : N) : option pystr :=
  match fuel with
  | O => None
  | S fuel' =>
      let filename := numbered base ext counter in
      if bool_decide (filename ∈ taken)
      then free_name fuel' taken base ext (counter + 1)
      else Some filename
  end.

(** Lines 379-388.  [taken] holds the names that exist in the output
    directory; one round more than it has names is enough fuel for the
    loop (see [unique_filename_total]). *)
Definition unique_filename (taken : gset pystr) (filename : pystr)
  : option pystr :=
  if bool_decide (filename ∈ taken) then
    let '(base, ext) := Path.splitext filename in
    free_name (S (size taken)) taken base ext 1
  else Some filename.

Inductive event :=
| Mkdir                                   (* [Path(output_dir).mkdir(...)] *)
| Msg_not_found                           (* "Error: File ... not found." *)
| Msg_no_urls                             (* "No URLs found in ..." *)
| Msg_found (n : nat)                     (* "Found n URLs to download" *)
| Http_get (url : pystr)
| Line_ok (filename : pystr) (size : N)
| Line_failed (display_name : pystr)
| Line_error (display_name : pystr)
| Statistics (total : nat) (succeeded failed bytes : N).

Record download_state := {
  files : gmap pystr (list N);     (* the output directory: name and content *)
  success_count : N;
  failed_count : N;
  total_bytes : N;
  file_types : gmap pystr N;
  trace : list event
}.

Definition log (e : list event) (st : download_state) : download_state :=
  {| files := files st; success_count := success_count st;
     failed_count := failed_count st; total_bytes := total_bytes st;
     file_types := file_types st; trace := trace st ++ e |}.

Definition count_failure (st : download_state) : download_state :=
  {| files := files st; success_count := success_count st;
     failed_count := failed_count st + 1; total_bytes := total_bytes st;
     file_types := file_types st; trace := trace st |}.

Definition write_file (name : pystr) (data : list N) (st : download_state)
  : download_state :=
  {| files := <[ name := data ]> (files st); success_count := success_count st;
     failed_count := failed_count st; total_bytes := total_bytes st;
     file_types := file_types st; trace := trace st |}.

Definition count_success (filename : pystr) (file_size : N)
    (st : download_state) : download_state :=
  let ext := Str.lower (Path.splitext filename).2 in
  {| files := files st; success_count := success_count st + 1;
     failed_count := failed_count st;
     total_bytes := total_bytes st + file_size;
     file_types :=
       if bool_decide (ext = []) then file_types st
       else <[ ext := default 0 (file_types st !! ext) + 1 ]> (file_types st);
     trace := trace st |}.

(** Lines 289-436: the body of the loop for one URL. *)
Definition download_one (fetch : pystr -> fetched) (idx : N) (url : pystr)
    (st : download_state) : download_state :=
  let st := log [Http_get url] st in
  match fetch url with
  | Request_exception => log [Line_failed (take 50 url)] (count_failure st)
  | Response r =>
      match resolve_filename url idx r with
      | None => log [Line_error (take 50 url)] (count_failure st)
      | Some filename =>
          match unique_filename (dom (files st)) filename with
          | None => st
          | Some filename =>
              match content_length r with
              | None => log [Line_error filename] (count_failure st)
              | Some _ =>
                  let data := concat (chunks r) in
                  let st := write_file filename data st in
                  if stream_ok r then
                    let file_size := N.of_nat (length data) in
                    log [Line_ok filename file_size]
                        (count_success filename file_size st)
                  else log [Line_failed filename] (count_failure st)
              end
          end
      end
  end.

(** [for idx, url in enumerate(urls, idx)] *)
Fixpoint download_all (fetch : pystr -> fetched) (idx : N) (urls : list pystr)
    (st : download_state) : download_state :=
  match urls with
  | [] => st
  | url :: rest => download_all fetch (idx + 1) rest (download_one fetch idx url st)
  end.

(** Line 254: the lines of the input file that are not blank,
    stripped. *)
Definition read_urls (lines : list pystr) : list pystr :=
  List.filter (fun line => negb (bool_decide (line = [])))
              (map (Str.strip Str.is_space) lines).

(** [download_files(input_file, output_dir)].  [input] holds the lines
    of the input file, [None] when the file does not exist; [dir] is the
    content of the output directory.  Elapsed time and the sizes
    printed with units are floating point and left out. *)
Definition download_files (input : option (list pystr))
    (fetch : pystr -> fetched) (dir : gmap pystr (list N)) : download_state :=
  let st := {| files := dir; success_count := 0; failed_count := 0;
               total_bytes := 0; file_types := ∅; trace := [Mkdir] |} in
  match input with
  | None => log [Msg_not_found] st
  | Some lines =>
      let urls := read_urls lines in
      if bool_decide (urls = []) then log [Msg_no_urls] st
      else
        let st := download_all fetch 1 urls (log [Msg_found (length urls)] st) in
        log [Statistics (length urls) (success_count st) (failed_count st)
                        (total_bytes st)] st
  end.

(** ** The properties, in the words of the specification *)

(** [s] ends with a dot and 2 to 5 characters of [[a-z0-9]]. *)
Definition ends_with_ext (s : pystr) : bool :=
  let e := Str.take_while ext_char (rev s) in
  (2 <=? length e)%nat && (length e <=? 5)%nat
  && match Str.drop_while ext_char (rev s) with
     | c :: _ => c =? 46
     | [] => false
     end.


(** The text of [s] before its first [?] or [#]. *)
Definition before_delim (s : pystr) : pystr :=
  Str.take_while (fun c => negb (Str.mem c (lit "?#"))) s.

(** [isFileLink] as the specification words it: the path, or the URL
    before its first [?] or [#], ends with an extension, and the path is
    not empty and does not end in [/]. *)
Definition is_file_link_spec (url : pystr) : option bool :=
  match Url.urlparse (Str.lower url) with
  | None => None
  | Some parsed =>
      let path := Url.p_path parsed in
      Some (negb (bool_decide (path = []))
            && negb (Str.endswith path (lit "/"))
            && (ends_with_ext path || ends_with_ext (before_delim (Str.lower url))))
  end.

(** The EXTRACT step as the specification words it: normalize first,
    then [isFileLink] on the normalized URL. *)
Fixpoint filter_links_spec (links : list pystr) (acc : gset pystr)
  : gset pystr * bool :=
  match links with
  | [] => (acc, true)
  | link :: rest =>
      match clean_google_url link with
      | Some clean_link =>
          match is_file_link clean_link with
          | None => (acc, false)
          | Some true => filter_links_spec rest ({[ clean_link ]} ∪ acc)
          | Some false => filter_links_spec rest acc
          end
      | None => filter_links_spec rest acc
      end
  end.



(** The characters no file name may hold: those of [invalid_chars], the
    slash and the backslash. *)
Definition forbidden_chars : pystr := invalid_chars ++ [47; 92].

(** ASCII control characters: 0 to 31, and DEL. *)
Definition ascii_control (c : N) : bool := (c <? 32) || (c =? 127).

Definition dot_or_space (c : N) : bool := Str.mem c (lit ". ").

(** The name, extension stripped and case ignored, is a reserved device
    name. *)
Definition is_reserved (name : pystr) : bool :=
  bool_decide (Str.upper (Path.splitext name).1 ∈ reserved_names).

(** What the specification promises of a sanitized name. *)
Definition sanitized_spec (name : pystr) : Prop :=
  (∀ c, c ∈ name → Str.mem c forbidden_chars = false ∧ ascii_control c = false)
  ∧ name ≠ []
  ∧ (∀ c, head name = Some c → dot_or_space c = false)
  ∧ (∀ c, last name = Some c → dot_or_space c = false)
  ∧ is_reserved name = false.

(** The same with "control character" read as the source comment has
    it, ASCII 0 to 31. *)
Definition sanitized (name : pystr) : Prop :=
  (∀ c, c ∈ name → Str.mem c forbidden_chars = false ∧ 32 <= c)
  ∧ name ≠ []
  ∧ (∀ c, head name = Some c → dot_or_space c = false)
  ∧ (∀ c, last name = Some c → dot_or_space c = false)
  ∧ is_reserved name = false.

(** The name a download is written to: resolved, then made unique in
    the directory. *)
Definition final_filename (url : pystr) (idx : N) (r : response)
    (taken : gset pystr) : option pystr :=
  match resolve_filename url idx r with
  | Some filename => unique_filename taken filename
  | None => None
  end.

(** The last segment of [p] has a character that is not a dot: what
    [splitext] asks of a root before it splits an extension off. *)
Definition has_stem (p : pystr) : bool :=
  existsb (λ c, negb (c =? 46)) (drop (Z.to_nat (Str.rfind 47 p + 1)) p).

(** ** Inputs of the examples *)

(** A server that declares the name [data.csv] for every URL and sends
    the URL itself as the body. *)
Definition csv_server (url : pystr) : fetched :=
  Response {| content_disposition := lit "attachment; filename=data.csv";
              content_type := lit "text/csv";
              content_length := Some (Z.of_nat (length url));
              chunks := [url];
              stream_ok := true |}.


(** ** Reading a trace *)

(** The URLs requested, in the order of the requests. *)
Fixpoint requests (tr : list event) : list pystr :=
  match tr with
  | [] => []
  | Http_get url :: rest => url :: requests rest
  | _ :: rest => requests rest
  end.

(** The files reported as downloaded, with the sizes reported. *)
Fixpoint ok_lines (tr : list event) : list (pystr * N) :=
  match tr with
  | [] => []
  | Line_ok filename size :: rest => (filename, size) :: ok_lines rest
  | _ :: rest => ok_lines rest
  end.

(** The number of lines that report a failure. *)
Fixpoint failure_lines (tr : list event) : N :=
  match tr with
  | [] => 0
  | Line_failed _ :: rest => 1 + failure_lines rest
  | Line_error _ :: rest => 1 + failure_lines rest
  | _ :: rest => failure_lines rest
  end.

(** The names shown by the lines that report a failure. *)
Fixpoint failure_names (tr : list event) : list pystr :=
  match tr with
  | [] => []
  | Line_failed display_name :: rest => display_name :: failure_names rest
  | Line_error display_name :: rest => display_name :: failure_names rest
  | _ :: rest => failure_names rest
  end.

(** [sum(sizes)] *)
Definition sum_sizes (l : list (pystr * N)) : N :=
  foldr (λ fs acc, fs.2 + acc) 0 l.

(** How many of the reported files have the extension [ext], case
    ignored. *)
Definition with_ext (ext : pystr) (l : list (pystr * N)) : N :=
  N.of_nat (length (List.filter
                      (λ fs, bool_decide (Str.lower (Path.splitext fs.1).2 = ext))
                      l)).

(** The counters of a run agree with its trace and its directory:
    what the loop of [download_files] keeps from one URL to the next.
    [dir] is the directory before the run. *)
Definition accounted (dir : gmap pystr (list N)) (st : download_state) : Prop :=
  success_count st = N.of_nat (length (ok_lines (trace st)))
  ∧ failed_count st = failure_lines (trace st)
  ∧ total_bytes st = sum_sizes (ok_lines (trace st))
  ∧ (∀ ext, ext ≠ [] →
            default 0 (file_types st !! ext) = with_ext ext (ok_lines (trace st)))
  ∧ file_types st !! [] = None
  ∧ NoDup (ok_lines (trace st)).*1
  ∧ (∀ filename size, (filename, size) ∈ ok_lines (trace st) →
       (filename ∉ dom dir)
       ∧ ∃ data, files st !! filename = Some data
                 ∧ N.of_nat (length data) = size)
  ∧ (∀ g data, dir !! g = Some data → files st !! g = Some data).

(** Every file in the directory was there at the start, or a line of
    the trace names it. *)
Definition named (dir : gmap pystr (list N)) (st : download_state) : Prop :=
  ∀ g, g ∈ dom (files st) →
       g ∈ dom dir ∨ g ∈ (ok_lines (trace st)).*1 ∨ g ∈ failure_names (trace st).

(** ** The link file and [main] *)

(** [save_links(links, output_file)]: the text written to the file,
    each link followed by a newline. *)
Definition save_links (links : list pystr) : pystr :=
  flat_map (λ link, link ++ [10]) links.

(** The lines that iterating over a text file gives (line 254): each
    ends with its newline, the last when the text does not end with one
    apart; a carriage return, alone or before a newline, ends a line as
    a newline does.  [cur] holds the line read so far. *)
Fixpoint file_lines_from (cur : pystr) (s : pystr) : list pystr :=
  match s with
  | [] => if bool_decide (cur = []) then [] else [cur]
  | c :: t =>
      if c =? 10 then (cur ++ [10]) :: file_lines_from [] t
      else if c =? 13 then
        match t with
        | d :: t' =>
            if d =? 10 then (cur ++ [10]) :: file_lines_from [] t'
            else (cur ++ [10]) :: file_lines_from [] t
        | [] => [cur ++ [10]]
        end
      else file_lines_from (cur ++ [c]) t
  end.

Definition file_lines (content : pystr) : list pystr :=
  file_lines_from [] content.

(** A line that reading gives back as it was written: not empty, on
    one line, without white space at either end. *)
Definition url_line (l : pystr) : Prop :=
  l ≠ [] ∧ (10 ∉ l) ∧ (13 ∉ l)
  ∧ (∀ c, head l = Some c → Str.is_space c = false)
  ∧ (∀ c, last l = Some c → Str.is_space c = false).

(** The arguments of the command line that decide what [main] does;
    the delay and the names of the link file and of the download
    directory only reach the browser and the file system. *)
Record args := {
  input_file : option pystr;     (* [--input-file] *)
  query : option pystr;          (* [-q] *)
  pages : Z;                     (* [-p] *)
  download : bool                (* [--download] *)
}.

Inductive main_result :=
| Usage_error
    (* [parser.error]: neither a query nor an input file *)
| Download_only (st : download_state)
    (* mode 1 *)
| Searched (links : list pystr) (saved : option pystr)
    (run : option download_state).
    (* mode 2: the links found, the text written to the link file if
       any, and the download run if any *)

(** [if s:] for an optional string *)
Definition given (s : option pystr) : bool :=
  match s with Some (_ :: _) => true | _ => false end.

(** Lines 555-600 of [main].  [read_text] gives the text of a file,
    [None] when the file does not exist; [dir] is the content of the
    download directory when the downloads start. *)
Definition main (a : args) (browser : nat -> page) (fetch : pystr -> fetched)
    (read_text : pystr -> option pystr) (dir : gmap pystr (list N))
  : main_result :=
  match input_file a with
  | Some ((_ :: _) as f) =>
      Download_only (download_files (file_lines <$> read_text f) fetch dir)
  | _ =>
      if negb (given (query a)) then Usage_error
      else
        let links := extract_file_links browser (pages a) in
        match links with
        | [] => Searched links None None
        | _ :: _ =>
            let content := save_links links in
            Searched links (Some content)
              (if download a
               then Some (download_files (Some (file_lines content)) fetch dir)
               else None)
        end
  end.

(** The URLs that a run of [main] requests. *)
Definition requested (r : main_result) : list pystr :=
  match r with
  | Download_only st => requests (trace st)
  | Searched _ _ (Some st) => requests (trace st)
  | _ => []
  end.

(** * Proofs *)

(** ** Strings *)

Section str_facts.
Implicit Types (s t p : pystr) (c : N) (f : N → bool).

Lemma mem_spec c s : Str.mem c s = true ↔ c ∈ s.
Proof.
  unfold Str.mem. rewrite existsb_exists. split.
  - intros (x & Hx & Heq). apply N.eqb_eq in Heq. subst.
    by apply list_elem_of_In.
  - intros H. exists c. split; [by apply list_elem_of_In | apply N.eqb_refl].
Qed.

Lemma mem_false c s : Str.mem c s = false ↔ c ∉ s.
Proof.
  rewrite <- mem_spec. destruct (Str.mem c s); split; done.
Qed.

Lemma startswith_spec s p : Str.startswith s p = true ↔ ∃ t, s = p ++ t.
Proof.
  revert s. induction p as [|a p IH]; intros s; simpl.
  - split; [intros _; by exists s | done].
  - destruct s as [|b s].
    + split; [done | intros (t & Ht); done].
    + rewrite andb_true_iff, N.eqb_eq, IH. split.
      * intros (-> & t & ->). by exists t.
      * intros (t & Ht). simplify_eq. eauto.
Qed.

Lemma endswith_spec s p : Str.endswith s p = true ↔ ∃ t, s = t ++ p.
Proof.
  unfold Str.endswith. rewrite startswith_spec. split.
  - intros (t & Ht). exists (rev t).
    apply (f_equal (@rev N)) in Ht.
    by rewrite rev_involutive, rev_app_distr, rev_involutive in Ht.
  - intros (t & ->). exists (rev t). by rewrite rev_app_distr.
Qed.

Lemma take_drop_while f s : Str.take_while f s ++ Str.drop_while f s = s.
Proof. induction s as [|c s IH]; simpl; [done|]. destruct (f c); simpl; by f_equal. Qed.


Lemma drop_while_head f s c t : Str.drop_while f s = c :: t → f c = false.
Proof.
  induction s as [|a s IH]; simpl; [done|].
  destruct (f a) eqn:E; [done|]. intros; by simplify_eq.
Qed.

Lemma take_while_app f s t :
  Forall (λ c, f c = true) s →
  match t with [] => True | c :: _ => f c = false end →
  Str.take_while f (s ++ t) = s ∧ Str.drop_while f (s ++ t) = t.
Proof.
  intros Hs Ht. induction Hs as [|a s Ha Hs IH]; simpl.
  - destruct t as [|c t]; simpl; [done|]. by rewrite Ht.
  - rewrite Ha. destruct IH as [-> ->]. done.
Qed.

Lemma drop_while_subseteq f s : Str.drop_while f s ⊆ s.
Proof.
  induction s as [|c s IH]; simpl; [done|].
  destruct (f c); [|done]. by apply list_subseteq_cons.
Qed.

Lemma take_while_subseteq f s : Str.take_while f s ⊆ s.
Proof.
  intros x Hx. rewrite <- (take_drop_while f s). apply elem_of_app. by left.
Qed.


Lemma split_once_None c s : Str.split_once c s = None → c ∉ s.
Proof.
  induction s as [|a s IH]; simpl; [intros _; apply not_elem_of_nil|].
  destruct (N.eqb_spec a c) as [->|Hne]; [done|].
  destruct (Str.split_once c s) as [[l' r']|]; [done|].
  intros _. rewrite not_elem_of_cons. split; [congruence | by apply IH].
Qed.

End str_facts.

(** ** Extensions at the end of a text and before a delimiter *)






(** ** The matcher *)

Section re_facts.
Implicit Types (r : Re.regex) (s t : pystr) (f : N → bool).










End re_facts.


(** ** The two extension patterns *)







(** ** What [urlparse] gives as the path *)

Section url_facts.
Implicit Types (url s : pystr).





End url_facts.


(** ** [is_file_link] *)




(** The other way round: parameters after a semicolon end the URL with
    an extension, the path does not. *)
Lemma is_file_link_spec_fails_params :
  is_file_link (lit "http://example.com/a;b.pdf") = Some false
  ∧ is_file_link_spec (lit "http://example.com/a;b.pdf") = Some true.
Proof. split; vm_compute; reflexivity. Qed.

(** ** [clean_google_url] *)





(** ** The EXTRACT step *)

(** C1 fails on the code: the filter runs on the raw link, before the
    wrapper is removed, so a wrapped file link (the one of the comment
    in [clean_google_url]) is dropped although its target passes both
    tests. *)
Lemma filter_links_drops_wrapped_file_link :
  clean_google_url (lit "https://www.google.com/url?q=https://example.com/file.pdf&sa=U")
    = Some (lit "https://example.com/file.pdf")
  ∧ is_file_link (lit "https://example.com/file.pdf") = Some true
  ∧ filter_links
      [lit "https://www.google.com/url?q=https://example.com/file.pdf&sa=U"] ∅
    = (∅, true)
  ∧ filter_links_spec
      [lit "https://www.google.com/url?q=https://example.com/file.pdf&sa=U"] ∅
    = ({[ lit "https://example.com/file.pdf" ]} ∪ ∅, true).
Proof.
  assert (is_file_link (lit "https://www.google.com/url?q=https://example.com/file.pdf&sa=U")
          = Some false) as Hraw by (vm_compute; reflexivity).
  assert (clean_google_url (lit "https://www.google.com/url?q=https://example.com/file.pdf&sa=U")
          = Some (lit "https://example.com/file.pdf")) as Hclean
    by (vm_compute; reflexivity).
  assert (is_file_link (lit "https://example.com/file.pdf") = Some true) as Htarget
    by (vm_compute; reflexivity).
  split; [done|]. split; [done|]. split.
  - cbn [filter_links]. by rewrite Hraw.
  - cbn [filter_links_spec]. by rewrite Hclean, Htarget.
Qed.


(** ** [sanitize_filename] *)

Section sanitize_facts.
Implicit Types (s t : pystr) (c d x : N) (f : N → bool).

Lemma elem_of_replace c d s x :
  x ∈ Str.replace c d s → x = d ∨ (x ∈ s ∧ x ≠ c).
Proof.
  unfold Str.replace. rewrite list_elem_of_fmap. intros (a & -> & Ha).
  destruct (N.eqb_spec a c); [by left | by right].
Qed.

Lemma rev_reverse s : rev s = reverse s.
Proof. apply rev_alt. Qed.

Lemma drop_while_suffix f s : ∃ pre, s = pre ++ Str.drop_while f s.
Proof. exists (Str.take_while f s). by rewrite take_drop_while. Qed.

Lemma lstrip_subseteq f s : Str.lstrip f s ⊆ s.
Proof. apply drop_while_subseteq. Qed.

Lemma rstrip_subseteq f s : Str.rstrip f s ⊆ s.
Proof.
  unfold Str.rstrip. rewrite !rev_reverse. intros x Hx.
  rewrite elem_of_reverse in Hx. apply lstrip_subseteq in Hx.
  by rewrite elem_of_reverse in Hx.
Qed.

Lemma strip_subseteq f s : Str.strip f s ⊆ s.
Proof.
  unfold Str.strip. etransitivity; [apply rstrip_subseteq | apply lstrip_subseteq].
Qed.

Lemma lstrip_head f s c : head (Str.lstrip f s) = Some c → f c = false.
Proof.
  unfold Str.lstrip. destruct (Str.drop_while f s) as [|a t] eqn:E; [done|].
  cbn [head]. intros [= ->]. by eapply drop_while_head.
Qed.

Lemma rstrip_last f s c : last (Str.rstrip f s) = Some c → f c = false.
Proof.
  unfold Str.rstrip. rewrite (rev_reverse (Str.lstrip _ _)), last_reverse.
  apply lstrip_head.
Qed.

(** Stripping at the end keeps the first character. *)
Lemma rstrip_head f s c : head (Str.rstrip f s) = Some c → head s = Some c.
Proof.
  unfold Str.rstrip, Str.lstrip.
  destruct (drop_while_suffix f (rev s)) as (pre & Hpre).
  intros H. apply (f_equal (@rev N)) in Hpre.
  rewrite rev_involutive, rev_app_distr in Hpre. rewrite Hpre.
  destruct (rev (Str.drop_while f (rev s))); [done|]. done.
Qed.

Lemma strip_ends f s :
  (∀ c, head (Str.strip f s) = Some c → f c = false)
  ∧ (∀ c, last (Str.strip f s) = Some c → f c = false).
Proof.
  unfold Str.strip. split; intros c H.
  - apply rstrip_head in H. by eapply lstrip_head.
  - by eapply rstrip_last.
Qed.

Lemma splitext_root_head c s : ∃ t, (Path.splitext (c :: s)).1 = c :: t.
Proof.
  unfold Path.splitext. destruct (_ && _)%bool eqn:E; [|by eexists].
  apply andb_true_iff in E as [_ E]. unfold Str.slice in E.
  destruct (Z.to_nat (Str.rfind 46 (c :: s))) as [|n]; [done|].
  by eexists.
Qed.

Lemma splitext_app s : (Path.splitext s).1 ++ (Path.splitext s).2 = s.
Proof.
  unfold Path.splitext. destruct (_ && _)%bool; cbn [fst snd].
  - apply take_drop.
  - apply app_nil_r.
Qed.

Lemma underscore_not_reserved s : is_reserved (95 :: s) = false.
Proof.
  unfold is_reserved. apply bool_decide_eq_false.
  destruct (splitext_root_head 95 s) as (t & ->).
  change (Str.upper (95 :: t)) with (95 :: Str.upper t).
  intros H. unfold reserved_names in H.
  repeat (apply elem_of_cons in H as [H|H]; [discriminate H|]).
  by apply elem_of_nil in H.
Qed.

(** The text after the replacements of lines 160-164. *)
Lemma replaced_chars s x :
  x ∈ Str.replace 92 95
        (Str.replace 47 95
           (fold_left (λ g char, Str.replace char 95 g) invalid_chars s)) →
  Str.mem x forbidden_chars = false.
Proof.
  change invalid_chars with [60; 62; 58; 34; 124; 63; 42].
  change forbidden_chars with [60; 62; 58; 34; 124; 63; 42; 47; 92].
  intros H. cbn [fold_left] in H.
  repeat (apply elem_of_replace in H as [->|[H ?]]; [done|]).
  apply mem_false.
  rewrite !not_elem_of_cons. repeat (split; [done|]). apply not_elem_of_nil.
Qed.

End sanitize_facts.

(** C5, as amended: every character of a sanitized name is outside
    [forbidden_chars] and has a code of 32 or more (DEL, 127, is kept);
    the name is not empty, neither begins nor ends with a dot or a
    space, and its root, upper-cased, is no reserved device name. *)
Theorem sanitize_filename_sanitized filename :
  sanitized (sanitize_filename filename).
Proof.
  unfold sanitize_filename.
  set (s1 := Str.replace 92 95 _).
  set (s2 := List.filter _ s1).
  set (s3 := Str.strip _ s2).
  set (s4 := if bool_decide (s3 = []) then lit "file" else s3).
  assert (∀ c, c ∈ s4 → Str.mem c forbidden_chars = false ∧ 32 <= c) as Hchars.
  { intros c Hc. subst s4. destruct (bool_decide_reflect (s3 = [])) as [_|_].
    - change (lit "file") with [102; 105; 108; 101] in Hc.
      repeat (apply elem_of_cons in Hc as [->|Hc]; [by split|]).
      by apply elem_of_nil in Hc.
    - apply strip_subseteq, list_elem_of_In, filter_In in Hc as [Hc H32].
      split; [|by apply N.leb_le].
      apply list_elem_of_In in Hc. by eapply replaced_chars. }
  assert (s4 ≠ []) as Hne.
  { subst s4. by destruct (bool_decide_reflect (s3 = [])). }
  assert ((∀ c, head s4 = Some c → dot_or_space c = false)
          ∧ (∀ c, last s4 = Some c → dot_or_space c = false)) as [Hhd Hlast].
  { subst s4. destruct (bool_decide_reflect (s3 = [])) as [_|_].
    - split; intros c Hc; vm_compute in Hc; by simplify_eq.
    - apply strip_ends. }
  fold (is_reserved s4). destruct (is_reserved s4) eqn:Eres.
  - split; [|split; [done|split; [|split]]].
    + intros c Hc. apply elem_of_cons in Hc as [->|Hc]; [by split|by apply Hchars].
    + intros c Hc. cbn in Hc. by simplify_eq.
    + intros c. destruct s4 as [|a s4]; [done|]. rewrite last_cons_cons.
      apply Hlast.
    + apply underscore_not_reserved.
  - done.
Qed.

(** C5 as stated fails: DEL is an ASCII control character and is left
    in the name. *)
Lemma sanitize_filename_keeps_del :
  sanitize_filename [97; 127; 98] = [97; 127; 98]
  ∧ ¬ sanitized_spec (sanitize_filename [97; 127; 98]).
Proof.
  assert (sanitize_filename [97; 127; 98] = [97; 127; 98]) as E
    by (vm_compute; reflexivity).
  split; [done|]. rewrite E. intros (H & _).
  destruct (H 127) as [_ Hc]; [|done].
  apply elem_of_cons. right. apply elem_of_cons. by left.
Qed.


(** ** [rfind] and [splitext] *)

Section splitext_facts.
Implicit Types (s t pre post root : pystr) (c : N).

Lemma rfind_not_in c s : c ∉ s → Str.rfind c s = (-1)%Z.
Proof.
  induction s as [|a s IH]; [done|]. rewrite not_elem_of_cons.
  intros [Hne Hs]. cbn [Str.rfind]. rewrite (IH Hs). cbn.
  destruct (N.eqb_spec a c); [congruence|done].
Qed.

Lemma rfind_last c pre post :
  c ∉ post → Str.rfind c (pre ++ c :: post) = Z.of_nat (length pre).
Proof.
  intros Hpost. induction pre as [|a pre IH]; cbn [app Str.rfind length].
  - rewrite (rfind_not_in _ _ Hpost). cbn. by rewrite N.eqb_refl.
  - rewrite IH. destruct (Z.leb_spec 0 (Z.of_nat (length pre))); lia.
Qed.

Lemma rfind_cases c s :
  ((c ∉ s) ∧ Str.rfind c s = (-1)%Z)
  ∨ (∃ pre post, s = pre ++ c :: post ∧ (c ∉ post)
                 ∧ Str.rfind c s = Z.of_nat (length pre)).
Proof.
  destruct (decide (c ∈ s)) as [Hin|Hout].
  - right. induction s as [|a s IH]; [by apply elem_of_nil in Hin|].
    destruct (decide (c ∈ s)) as [Hs|Hs].
    + destruct (IH Hs) as (pre & post & -> & Hpost & _).
      exists (a :: pre), post. split; [done|]. split; [done|].
      by apply (rfind_last c (a :: pre)).
    + apply elem_of_cons in Hin as [->|Hin]; [|done].
      exists [], s. split; [done|]. split; [done|].
      by apply (rfind_last a []).
  - left. split; [done | by apply rfind_not_in].
Qed.

Lemma rfind_app_r c s t : c ∉ t → Str.rfind c (s ++ t) = Str.rfind c s.
Proof.
  intros Ht. destruct (rfind_cases c s) as [[Hs E]|(pre & post & -> & Hpost & E)].
  - rewrite E. apply rfind_not_in. rewrite elem_of_app. tauto.
  - rewrite E, <- app_assoc. cbn [app]. apply rfind_last.
    rewrite elem_of_app. tauto.
Qed.

Lemma rfind_take c s n :
  (Str.rfind c s < Z.of_nat n)%Z → Str.rfind c (take n s) = Str.rfind c s.
Proof.
  destruct (rfind_cases c s) as [[Hs E]|(pre & post & -> & Hpost & E)];
    rewrite E; intros Hn.
  - apply rfind_not_in. intros H. by apply subseteq_take in H.
  - rewrite take_app_ge by lia.
    replace (n - length pre)%nat with (S (n - length pre - 1)) by lia.
    cbn [take]. apply rfind_last. intros H. by apply subseteq_take in H.
Qed.

Lemma splitext_root_has_stem p :
  (Path.splitext p).2 ≠ [] → has_stem (Path.splitext p).1 = true.
Proof.
  unfold Path.splitext, has_stem.
  destruct (_ && _)%bool eqn:E; cbn [fst snd]; [intros _|done].
  apply andb_true_iff in E as [Hlt E]. apply Z.ltb_lt in Hlt.
  assert (-1 ≤ Str.rfind 47 p)%Z as Hsep.
  { destruct (rfind_cases 47 p) as [[_ ->]|(? & ? & _ & _ & ->)]; lia. }
  rewrite rfind_take by lia.
  unfold Str.slice in E. rewrite take_drop_commute in E.
  by replace (Z.to_nat (Str.rfind 47 p + 1)
              + (Z.to_nat (Str.rfind 46 p) - Z.to_nat (Str.rfind 47 p + 1)))%nat
    with (Z.to_nat (Str.rfind 46 p)) in E by lia.
Qed.

(** Appending an extension to a root that has a stem gives a name
    that [splitext] splits back into the two. *)
Lemma splitext_root_ext root e :
  has_stem root = true → 46 ∉ e → 47 ∉ e →
  Path.splitext (root ++ 46 :: e) = (root, 46 :: e).
Proof.
  intros Hstem Hdot Hsep. unfold Path.splitext.
  rewrite (rfind_last 46 root e Hdot).
  rewrite (rfind_app_r 47 root (46 :: e))
    by (rewrite not_elem_of_cons; split; [done|done]).
  assert (-1 ≤ Str.rfind 47 root < Z.of_nat (length root))%Z as Hlt.
  { destruct (rfind_cases 47 root) as [[_ ->]|(pre & post & -> & _ & ->)].
    - lia.
    - rewrite length_app. cbn [length]. lia. }
  unfold Str.slice, has_stem in *.
  rewrite Nat2Z.id, take_drop_commute.
  replace (Z.to_nat (Str.rfind 47 root + 1)
           + (length root - Z.to_nat (Str.rfind 47 root + 1)))%nat
    with (length root) by lia.
  rewrite take_app_length, drop_app_length, Hstem.
  destruct (Z.ltb_spec (Str.rfind 47 root) (Z.of_nat (length root))); [done|lia].
Qed.

End splitext_facts.


(** ** Numbered names and the collision loop *)

Section unique_facts.
Implicit Types (base ext name : pystr) (taken : gset pystr) (k j i : N).

Lemma of_uint_inj d d' : Str.of_uint d = Str.of_uint d' → d = d'.
Proof.
  revert d'. induction d as [|d IH|d IH|d IH|d IH|d IH|d IH|d IH|d IH|d IH|d IH];
    intros [|d'|d'|d'|d'|d'|d'|d'|d'|d'|d']; cbn [Str.of_uint];
    intros H; try discriminate H; try done;
    injection H as H; f_equal; by apply IH.
Qed.

Lemma of_int_inj k j : Str.of_int k = Str.of_int j → k = j.
Proof.
  unfold Str.of_int. intros H.
  by apply DecimalN.Unsigned.to_uint_inj, of_uint_inj.
Qed.

Lemma numbered_inj base ext k j :
  numbered base ext k = numbered base ext j → k = j.
Proof.
  unfold numbered. intros H.
  apply app_inv_head, app_inv_head, app_inv_tail in H. by apply of_int_inj.
Qed.

(** What the loop returns, and what it has seen when the fuel runs
    out. *)
Lemma free_name_spec fuel taken base ext k :
  match free_name fuel taken base ext k with
  | Some name =>
      ∃ j, k <= j ∧ name = numbered base ext j ∧ (name ∉ taken)
           ∧ ∀ i, k <= i < j → numbered base ext i ∈ taken
  | None =>
      ∀ i, k <= i < k + N.of_nat fuel → numbered base ext i ∈ taken
  end.
Proof.
  revert k. induction fuel as [|fuel IH]; intros k; cbn [free_name].
  - intros i Hi. lia.
  - destruct (bool_decide_reflect (numbered base ext k ∈ taken)) as [Hin|Hout].
    + specialize (IH (k + 1)).
      destruct (free_name fuel taken base ext (k + 1)) as [name|].
      * destruct IH as (j & Hj & -> & Hfree & Hbelow).
        exists j. split; [lia|]. split; [done|]. split; [done|].
        intros i Hi. destruct (decide (i = k)) as [->|]; [done|].
        apply Hbelow. lia.
      * intros i Hi. destruct (decide (i = k)) as [->|]; [done|].
        apply IH. lia.
    + exists k. split; [lia|]. split; [done|]. split; [done|].
      intros i Hi. lia.
Qed.

(** A directory cannot hold more numbered names than it has names. *)
Lemma numbered_not_all_taken taken base ext :
  ¬ ∀ i, 1 <= i < 1 + N.of_nat (S (size taken)) → numbered base ext i ∈ taken.
Proof.
  intros H.
  set (l := (λ n, numbered base ext (N.of_nat n)) <$> seq 1 (S (size taken))).
  assert (NoDup l) as Hnd.
  { apply NoDup_fmap_2_strong; [|apply NoDup_seq].
    intros a b _ _ E. apply numbered_inj in E. lia. }
  assert (list_to_set l ⊆ taken) as Hsub.
  { intros x Hx. apply elem_of_list_to_set in Hx.
    apply list_elem_of_fmap in Hx as (n & -> & Hn).
    apply elem_of_seq in Hn. apply H. lia. }
  apply subseteq_size in Hsub.
  rewrite size_list_to_set in Hsub by done.
  subst l. rewrite length_fmap, length_seq in Hsub. lia.
Qed.

(** The loop of lines 382-388 ends, and on the first free numbered
    name. *)
Lemma unique_filename_spec taken filename :
  ((filename ∉ taken) ∧ unique_filename taken filename = Some filename)
  ∨ (filename ∈ taken
     ∧ ∃ k, 1 <= k
         ∧ unique_filename taken filename
           = Some (numbered (Path.splitext filename).1 (Path.splitext filename).2 k)
         ∧ (numbered (Path.splitext filename).1 (Path.splitext filename).2 k ∉ taken)
         ∧ ∀ j, 1 <= j < k →
                numbered (Path.splitext filename).1 (Path.splitext filename).2 j
                ∈ taken).
Proof.
  unfold unique_filename.
  destruct (bool_decide_reflect (filename ∈ taken)) as [Hin|Hout]; [right|by left].
  split; [done|]. destruct (Path.splitext filename) as [base ext]. cbn [fst snd].
  pose proof (free_name_spec (S (size taken)) taken base ext 1) as H.
  destruct (free_name (S (size taken)) taken base ext 1) as [name|].
  - destruct H as (k & Hk & -> & Hfree & Hbelow). by exists k.
  - by apply numbered_not_all_taken in H.
Qed.

Lemma unique_filename_total taken filename :
  ∃ name, unique_filename taken filename = Some name ∧ name ∉ taken.
Proof.
  destruct (unique_filename_spec taken filename)
    as [[Hout ->]|(_ & k & _ & -> & Hfree & _)]; eauto.
Qed.

End unique_facts.


(** ** Extension reconciliation *)

Lemma expected_ext_shape ct :
  expected_ext ct = []
  ∨ ∃ e, expected_ext ct = 46 :: e ∧ (46 ∉ e) ∧ (47 ∉ e).
Proof.
  unfold expected_ext. set (key := Str.lower _).
  destruct (mime_to_ext !! key) as [e|] eqn:E; [right|by left].
  cbn [default]. unfold mime_to_ext in E.
  apply elem_of_list_to_map_2 in E.
  repeat (apply elem_of_cons in E as [E|E];
          [injection E as _ ->; eexists; split; [reflexivity|];
           split; apply mem_false; reflexivity|]).
  by apply elem_of_nil in E.
Qed.

Lemma reconcile_ext_replaces filename e :
  e ≠ [] →
  Str.lower (Path.splitext filename).2 ∈ dynamic_exts →
  Str.lower (Path.splitext filename).2 ≠ e →
  reconcile_ext filename e = (Path.splitext filename).1 ++ e.
Proof.
  intros He Hdyn Hne. unfold reconcile_ext.
  assert (filename ≠ []) as Hf.
  { intros ->. vm_compute in Hdyn.
    repeat (apply elem_of_cons in Hdyn as [Hdyn|Hdyn]; [discriminate Hdyn|]).
    by apply elem_of_nil in Hdyn. }
  rewrite (bool_decide_eq_false_2 _ Hf), (bool_decide_eq_false_2 _ He).
  rewrite (bool_decide_eq_false_2 _ Hne), (bool_decide_eq_true_2 _ Hdyn).
  done.
Qed.

Lemma endswith_app t p : Str.endswith (t ++ p) p = true.
Proof. apply endswith_spec. by exists t. Qed.

Lemma pdf_not_aspx t : Str.endswith (t ++ lit ".pdf") (lit ".aspx") = false.
Proof. unfold Str.endswith. rewrite rev_app_distr. reflexivity. Qed.

(** C6.  When the content type has an extension in the table and the
    extension of the resolved name, lower-cased, is one of the dynamic
    ones and differs from it, the name that goes on to be sanitized is
    the old root with the expected extension, and [splitext] finds
    exactly that extension in it.  For the declared name [report.aspx]
    and the type of [.pdf] the name written in the end, whatever the
    directory holds, ends in [.pdf] and not in [.aspx]. *)
Theorem dynamic_extension_replaced url idx r taken filename :
  raw_filename url r = Some filename →
  expected_ext (content_type r) ≠ [] →
  Str.lower (Path.splitext filename).2 ∈ dynamic_exts →
  Str.lower (Path.splitext filename).2 ≠ expected_ext (content_type r) →
  reconcile_ext filename (expected_ext (content_type r))
    = (Path.splitext filename).1 ++ expected_ext (content_type r)
  ∧ Path.splitext ((Path.splitext filename).1 ++ expected_ext (content_type r))
    = ((Path.splitext filename).1, expected_ext (content_type r))
  ∧ resolve_filename url idx r
    = Some (sanitize_filename
              ((Path.splitext filename).1 ++ expected_ext (content_type r)))
  ∧ (filename = lit "report.aspx" →
     expected_ext (content_type r) = lit ".pdf" →
     ∃ name, final_filename url idx r taken = Some name
             ∧ Str.endswith name (lit ".pdf") = true
             ∧ Str.endswith name (lit ".aspx") = false).
Proof.
  intros Hraw He Hdyn Hne.
  pose proof (reconcile_ext_replaces _ _ He Hdyn Hne) as Hrec.
  assert (Path.splitext ((Path.splitext filename).1 ++ expected_ext (content_type r))
          = ((Path.splitext filename).1, expected_ext (content_type r))) as Hsplit.
  { destruct (expected_ext_shape (content_type r)) as [E|(e & E & Hdot & Hsep)];
      [done|].
    rewrite E. apply splitext_root_ext; [|done..].
    apply splitext_root_has_stem. intros Hnil. rewrite Hnil in Hdyn.
    vm_compute in Hdyn.
    repeat (apply elem_of_cons in Hdyn as [Hdyn|Hdyn]; [discriminate Hdyn|]).
    by apply elem_of_nil in Hdyn. }
  assert (resolve_filename url idx r
          = Some (sanitize_filename
                    ((Path.splitext filename).1 ++ expected_ext (content_type r))))
    as Hres.
  { unfold resolve_filename. rewrite Hraw, Hrec.
    destruct (expected_ext_shape (content_type r)) as [E|(e & E & _)]; [done|].
    rewrite E.
    assert ((Path.splitext filename).1 ++ 46 :: e ≠ []) as Hnil
      by (by destruct (Path.splitext filename).1).
    rewrite (bool_decide_eq_false_2 _ Hnil). cbn [orb].
    assert (Str.mem 46 ((Path.splitext filename).1 ++ 46 :: e) = true) as ->; [|done].
    apply mem_spec, elem_of_app. right. by left. }
  split; [done|]. split; [done|]. split; [done|].
  intros -> Hpdf. unfold final_filename. rewrite Hres, Hpdf.
  change (sanitize_filename _) with (lit "report.pdf").
  destruct (unique_filename_spec taken (lit "report.pdf"))
    as [[_ ->]|(_ & k & _ & -> & _)].
  - eexists. split; [done|]. split; reflexivity.
  - eexists. split; [done|].
    change (Path.splitext (lit "report.pdf")) with (lit "report", lit ".pdf").
    cbn [fst snd]. unfold numbered. rewrite !app_assoc. split.
    + apply endswith_app.
    + apply pdf_not_aspx.
Qed.

Lemma dynamic_extension_replaced_witness :
  ∃ name,
    final_filename (lit "https://example.com/download.aspx?id=7") 1
      {| content_disposition :=
           lit "attachment; filename=" ++ [34] ++ lit "report.aspx" ++ [34];
         content_type := lit "application/pdf";
         content_length := Some 0%Z; chunks := []; stream_ok := true |}
      {[ lit "report.pdf" ]} = Some name
    ∧ Str.endswith name (lit ".pdf") = true
    ∧ Str.endswith name (lit ".aspx") = false.
Proof.
  apply (dynamic_extension_replaced
           (lit "https://example.com/download.aspx?id=7") 1
           {| content_disposition :=
                lit "attachment; filename=" ++ [34] ++ lit "report.aspx" ++ [34];
              content_type := lit "application/pdf";
              content_length := Some 0%Z; chunks := []; stream_ok := true |}
           {[ lit "report.pdf" ]} (lit "report.aspx")).
  - vm_compute; reflexivity.
  - vm_compute; discriminate.
  - apply (bool_decide_unpack _). vm_compute. exact I.
  - vm_compute; discriminate.
  - reflexivity.
  - vm_compute; reflexivity.
Defined.


(** The replaced extension need not survive sanitization: a declared
    name whose root is a space becomes a name without extension. *)
Lemma replaced_extension_stripped :
  resolve_filename (lit "https://example.com/get") 1
    {| content_disposition := lit "inline; filename= .php";
       content_type := lit "application/pdf";
       content_length := Some 0%Z; chunks := []; stream_ok := true |}
  = Some (lit "pdf").
Proof. vm_compute. reflexivity. Qed.

(** ** The downloader *)

Section download_facts.
Implicit Types (st : download_state) (fetch : pystr → fetched)
  (url filename name : pystr) (idx : N).

Lemma files_log e st : files (log e st) = files st.
Proof. done. Qed.

Lemma files_count_failure st : files (count_failure st) = files st.
Proof. done. Qed.

Lemma files_count_success filename n st :
  files (count_success filename n st) = files st.
Proof. done. Qed.

(** One round of the loop either leaves the directory as it is or
    adds one file under a name that was free. *)
Lemma download_one_files fetch idx url st :
  files (download_one fetch idx url st) = files st
  ∨ ∃ r filename name,
      fetch url = Response r
      ∧ resolve_filename url idx r = Some filename
      ∧ unique_filename (dom (files st)) filename = Some name
      ∧ (name ∉ dom (files st))
      ∧ files (download_one fetch idx url st)
        = <[ name := concat (chunks r) ]> (files st).
Proof.
  unfold download_one. destruct (fetch url) as [|r] eqn:Ef; [by left|].
  destruct (resolve_filename url idx r) as [filename|] eqn:Er; [|by left].
  destruct (unique_filename_total (dom (files (log [Http_get url] st))) filename)
    as (name & Hu & Hfree).
  rewrite Hu. destruct (content_length r); [|by left].
  right. exists r, filename, name.
  split; [done|]. split; [done|]. split; [done|]. split; [done|].
  by destruct (stream_ok r).
Qed.

(** No round overwrites a file that exists. *)
Lemma download_one_preserves fetch idx url st g data :
  files st !! g = Some data →
  files (download_one fetch idx url st) !! g = Some data.
Proof.
  intros Hg.
  destruct (download_one_files fetch idx url st)
    as [->|(r & filename & name & _ & _ & _ & Hfree & ->)]; [done|].
  rewrite lookup_insert_ne; [done|].
  intros ->. apply Hfree, elem_of_dom. by eexists.
Qed.

Lemma download_all_preserves fetch idx urls st g data :
  files st !! g = Some data →
  files (download_all fetch idx urls st) !! g = Some data.
Proof.
  revert idx st. induction urls as [|url urls IH]; intros idx st Hg; [done|].
  cbn [download_all]. by apply IH, download_one_preserves.
Qed.

Lemma download_files_preserves input fetch dir g data :
  dir !! g = Some data →
  files (download_files input fetch dir) !! g = Some data.
Proof.
  intros Hg. unfold download_files.
  destruct input as [lines|]; [|done].
  destruct (bool_decide _); [done|].
  rewrite files_log. by apply download_all_preserves.
Qed.

End download_facts.




(** The run of the specification's example: two URLs whose downloads
    both resolve to [data.csv], into an empty directory. *)
Lemma two_downloads_of_data_csv :
  files (download_files
           (Some [lit "http://a.example/get?id=1"; lit "http://b.example/get?id=2"])
           csv_server ∅)
  = {[ lit "data.csv" := lit "http://a.example/get?id=1";
       lit "data_1.csv" := lit "http://b.example/get?id=2" ]}.
Proof. vm_compute. reflexivity. Qed.


(** ** Missing or empty input *)

Lemma read_urls_blank lines :
  Forall (λ line, Str.strip Str.is_space line = []) lines → read_urls lines = [].
Proof.
  unfold read_urls. induction 1 as [|line lines Hline _ IH]; [done|].
  cbn [map List.filter]. rewrite Hline. by rewrite bool_decide_eq_true_2.
Qed.

(** C8.  When the input file does not exist, or holds only blank
    lines, [download_files] reports it and returns: the trace holds the
    creation of the output directory and the message and nothing else
    (no request, no statistics), the files of the directory are those it
    had, and all counters are at zero. *)
Theorem download_files_without_input input fetch dir :
  input = None
  ∨ (∃ lines, input = Some lines
              ∧ Forall (λ line, Str.strip Str.is_space line = []) lines) →
  trace (download_files input fetch dir)
    = [Mkdir; match input with None => Msg_not_found | Some _ => Msg_no_urls end]
  ∧ (∀ url, Http_get url ∉ trace (download_files input fetch dir))
  ∧ (∀ a b c d, Statistics a b c d ∉ trace (download_files input fetch dir))
  ∧ files (download_files input fetch dir) = dir
  ∧ success_count (download_files input fetch dir) = 0
  ∧ failed_count (download_files input fetch dir) = 0
  ∧ total_bytes (download_files input fetch dir) = 0
  ∧ file_types (download_files input fetch dir) = ∅.
Proof.
  intros [->|(lines & -> & Hblank)].
  - split; [done|]. split; [|split; [|done]].
    + intros url H. cbn in H.
      repeat (apply elem_of_cons in H as [H|H]; [discriminate H|]).
      by apply elem_of_nil in H.
    + intros a b c d H. cbn in H.
      repeat (apply elem_of_cons in H as [H|H]; [discriminate H|]).
      by apply elem_of_nil in H.
  - unfold download_files. rewrite (read_urls_blank _ Hblank).
    rewrite bool_decide_eq_true_2 by done.
    split; [done|]. split; [|split; [|done]].
    + intros url H. cbn in H.
      repeat (apply elem_of_cons in H as [H|H]; [discriminate H|]).
      by apply elem_of_nil in H.
    + intros a b c d H. cbn in H.
      repeat (apply elem_of_cons in H as [H|H]; [discriminate H|]).
      by apply elem_of_nil in H.
Qed.

Lemma download_files_without_input_witness :
  trace (download_files (Some [lit "  "; []; [9; 32]]) csv_server
           {[ lit "old.txt" := [1; 2; 3] ]})
    = [Mkdir; Msg_no_urls]
  ∧ files (download_files (Some [lit "  "; []; [9; 32]]) csv_server
             {[ lit "old.txt" := [1; 2; 3] ]})
    = {[ lit "old.txt" := [1; 2; 3] ]}.
Proof.
  destruct (download_files_without_input (Some [lit "  "; []; [9; 32]])
              csv_server {[ lit "old.txt" := [1; 2; 3] ]})
    as (Htrace & _ & _ & Hfiles & _).
  - right. exists [lit "  "; []; [9; 32]]. split; [reflexivity|].
    repeat constructor.
  - split; [exact Htrace | exact Hfiles].
Defined.

(** With at least one line that is not blank the run is not cut short:
    every URL is requested. *)
Lemma download_files_requests_each_url :
  trace (download_files (Some [lit " http://a.example/get?id=1 "; []])
           (λ _, Request_exception) ∅)
  = [Mkdir; Msg_found 1; Http_get (lit "http://a.example/get?id=1");
     Line_failed (lit "http://a.example/get?id=1"); Statistics 1 0 1 0].
Proof. vm_compute. reflexivity. Qed.


(** ** The order of strings *)

#[global] Instance str_le_total : Total Str.le.
Proof.
  unfold Total, Str.le. intros s. induction s as [|a s IH]; intros [|b t]; cbn;
    [by left..| by right|].
  destruct (N.ltb_spec a b); [by left|].
  destruct (N.ltb_spec b a); [by right|].
  assert (a = b) as -> by lia. rewrite N.eqb_refl. cbn. apply IH.
Qed.

#[global] Instance str_le_trans : Transitive Str.le.
Proof.
  unfold Transitive, Str.le. intros s. induction s as [|a s IH]; [done|].
  intros [|b t] [|c u]; cbn [Str.leb]; try done.
  rewrite !orb_true_iff, !andb_true_iff, !N.ltb_lt, !N.eqb_eq.
  intros [Hab|[-> Hst]] [Hbc|[-> Htu]].
  - left. lia.
  - by left.
  - by left.
  - right. split; [done|]. by eapply IH.
Qed.

Lemma str_le_antisym s t : Str.le s t → Str.le t s → s = t.
Proof.
  unfold Str.le. revert t. induction s as [|a s IH]; intros [|b t]; cbn [Str.leb];
    try done.
  rewrite !orb_true_iff, !andb_true_iff, !N.ltb_lt, !N.eqb_eq.
  intros [Hab|[-> Hst]] [Hba|[Heq Hts]]; try lia.
  f_equal. by apply IH.
Qed.

(** ** The crawl *)

Section crawl_facts.
Implicit Types (browser : nat → page) (links : list pystr)
  (acc : gset pystr) (st : crawl_state) (u link : pystr).

(** The pages visited are the first of those to come. *)
Lemma crawl_pages_visited browser page_nums st :
  ∃ k, visited (crawl_pages browser page_nums st)
       = visited st ++ take k page_nums.
Proof.
  revert st. induction page_nums as [|page_num rest IH]; intros st.
  - exists 0%nat. cbn. by rewrite app_nil_r.
  - cbn [crawl_pages]. destruct (browser page_num) as [|links has_next].
    + destruct (IH {| file_links := file_links st;
                      visited := visited st ++ [page_num] |}) as (k & ->).
      exists (S k). cbn. by rewrite <- app_assoc.
    + destruct (filter_links links (file_links st)) as [acc completed].
      assert (∃ k, visited (crawl_pages browser rest
                              {| file_links := acc;
                                 visited := visited st ++ [page_num] |})
                   = visited st ++ take k (page_num :: rest)) as Hgo.
      { destruct (IH {| file_links := acc;
                        visited := visited st ++ [page_num] |}) as (k & ->).
        exists (S k). cbn. by rewrite <- app_assoc. }
      destruct completed, has_next as [[]|]; try done.
      exists 1%nat. done.
Qed.



End crawl_facts.


(** C9.  Whatever the browser shows, also a next control on every
    page, the pages for which [goto] is called are the first pages of
    [range(max_pages)], so at most [max_pages] of them (none when
    [max_pages] is not positive); the crawl is a total function. *)
Theorem crawl_visits_at_most_max_pages browser max_pages :
  visited (crawl browser max_pages) `prefix_of` range max_pages
  ∧ (length (visited (crawl browser max_pages)) ≤ Z.to_nat max_pages)%nat
  ∧ (Z.of_nat (length (visited (crawl browser max_pages)))
     ≤ Z.max 0 max_pages)%Z.
Proof.
  unfold crawl.
  destruct (crawl_pages_visited browser (range max_pages)
              {| file_links := ∅; visited := [] |}) as (k & ->).
  cbn [visited app].
  assert (length (take k (range max_pages)) ≤ Z.to_nat max_pages)%nat as Hlen.
  { rewrite length_take. unfold range. rewrite length_seq. lia. }
  split; [|split; [done|lia]].
  exists (drop k (range max_pages)). by rewrite take_drop.
Qed.

(** With a next control on every page and no failure the bound is
    reached: exactly the pages [0 .. max_pages - 1] are visited. *)
Lemma crawl_pages_all_next browser page_nums st :
  (∀ i, ∃ links, browser i = Page_shown links (Some true)) →
  visited (crawl_pages browser page_nums st) = visited st ++ page_nums.
Proof.
  intros Hnext. revert st.
  induction page_nums as [|page_num rest IH]; intros st; cbn [crawl_pages].
  - by rewrite app_nil_r.
  - destruct (Hnext page_num) as (links & ->).
    destruct (filter_links links (file_links st)) as [acc completed].
    destruct completed; rewrite IH; cbn; by rewrite <- app_assoc.
Qed.

Lemma crawl_always_next browser max_pages :
  (∀ i, ∃ links, browser i = Page_shown links (Some true)) →
  visited (crawl browser max_pages) = range max_pages.
Proof. intros H. unfold crawl. by rewrite crawl_pages_all_next. Qed.

Lemma sorted_Permutation xs : sorted xs ≡ₚ xs.
Proof. apply merge_sort_Permutation. Qed.

Lemma elem_of_extract_file_links browser max_pages u :
  u ∈ extract_file_links browser max_pages
  ↔ u ∈ file_links (crawl browser max_pages).
Proof.
  unfold extract_file_links. rewrite sorted_Permutation. apply elem_of_elements.
Qed.

(** C10.  The list that [extract_file_links] returns has no duplicates,
    is sorted in the order of strings, and holds exactly the links
    accumulated in [file_links]. *)
Theorem extract_file_links_sorted_nodup browser max_pages :
  NoDup (extract_file_links browser max_pages)
  ∧ StronglySorted Str.le (extract_file_links browser max_pages)
  ∧ ∀ u, u ∈ extract_file_links browser max_pages
         ↔ u ∈ file_links (crawl browser max_pages).
Proof.
  split; [|split].
  - unfold extract_file_links. rewrite sorted_Permutation. apply NoDup_elements.
  - apply StronglySorted_merge_sort; apply _.
  - apply elem_of_extract_file_links.
Qed.

(** A link that two pages repeat, and that a page repeats, is returned
    once; the result is in order. *)
Lemma extract_file_links_repeated :
  extract_file_links
    (λ _, Page_shown [lit "https://b.example/x.pdf"; lit "https://a.example/y.zip";
                      lit "https://b.example/x.pdf"] (Some true)) 3
  = [lit "https://a.example/y.zip"; lit "https://b.example/x.pdf"].
Proof. vm_compute. reflexivity. Qed.





(** * Further properties *)

(** ** The accounts of a run *)

Section account_facts.
Implicit Types (st : download_state) (fetch : pystr → fetched)
  (dir : gmap pystr (list N)) (url name : pystr) (idx : N) (tr : list event).

Lemma requests_app tr1 tr2 : requests (tr1 ++ tr2) = requests tr1 ++ requests tr2.
Proof.
  induction tr1 as [|e tr1 IH]; [done|]. destruct e; cbn; by rewrite ?IH.
Qed.

Lemma ok_lines_app tr1 tr2 : ok_lines (tr1 ++ tr2) = ok_lines tr1 ++ ok_lines tr2.
Proof.
  induction tr1 as [|e tr1 IH]; [done|]. destruct e; cbn; by rewrite ?IH.
Qed.

Lemma failure_lines_app tr1 tr2 :
  failure_lines (tr1 ++ tr2) = failure_lines tr1 + failure_lines tr2.
Proof.
  induction tr1 as [|e tr1 IH]; [done|]. destruct e; cbn [app failure_lines];
    rewrite ?IH; lia.
Qed.

Lemma sum_sizes_app l1 l2 : sum_sizes (l1 ++ l2) = sum_sizes l1 + sum_sizes l2.
Proof.
  unfold sum_sizes. induction l1 as [|x l1 IH]; cbn; [done|]. rewrite IH. lia.
Qed.

Lemma with_ext_app ext l1 l2 :
  with_ext ext (l1 ++ l2) = with_ext ext l1 + with_ext ext l2.
Proof. unfold with_ext. rewrite List.filter_app, length_app. lia. Qed.

(** What one round of the loop does to the state: a request and one
    line; either a failure is counted, with at most one new file (a
    stream that broke), or a success, with one new file of the size
    reported. *)
Lemma download_one_cases fetch idx url st :
  let st' := download_one fetch idx url st in
  (∃ display_name,
     (trace st' = trace st ++ [Http_get url; Line_failed display_name]
      ∨ trace st' = trace st ++ [Http_get url; Line_error display_name])
     ∧ success_count st' = success_count st
     ∧ failed_count st' = failed_count st + 1
     ∧ total_bytes st' = total_bytes st
     ∧ file_types st' = file_types st
     ∧ (files st' = files st
        ∨ ∃ name data, (name ∉ dom (files st))
                       ∧ files st' = <[ name := data ]> (files st)))
  ∨ (∃ name data,
       trace st' = trace st ++ [Http_get url; Line_ok name (N.of_nat (length data))]
       ∧ (name ∉ dom (files st))
       ∧ files st' = <[ name := data ]> (files st)
       ∧ success_count st' = success_count st + 1
       ∧ failed_count st' = failed_count st
       ∧ total_bytes st' = total_bytes st + N.of_nat (length data)
       ∧ file_types st'
         = (let ext := Str.lower (Path.splitext name).2 in
            if bool_decide (ext = []) then file_types st
            else <[ ext := default 0 (file_types st !! ext) + 1 ]> (file_types st))).
Proof.
  cbn zeta. unfold download_one.
  destruct (fetch url) as [|r].
  { left. exists (take 50 url). cbn. rewrite <- app_assoc. auto 10. }
  destruct (resolve_filename url idx r) as [filename|].
  2:{ left. exists (take 50 url). cbn. rewrite <- app_assoc. auto 10. }
  destruct (unique_filename_total (dom (files (log [Http_get url] st))) filename)
    as (name & -> & Hfree).
  destruct (content_length r).
  2:{ left. exists name. cbn. rewrite <- app_assoc. auto 10. }
  destruct (stream_ok r).
  - right. exists name, (concat (chunks r)). cbn. rewrite <- app_assoc.
    auto 10.
  - left. exists name. cbn. rewrite <- app_assoc.
    split; [auto|]. do 4 (split; [done|]). right. eauto.
Qed.

Lemma with_ext_single ext name size :
  with_ext ext [(name, size)]
  = if bool_decide (Str.lower (Path.splitext name).2 = ext) then 1 else 0.
Proof. unfold with_ext. cbn. by destruct (bool_decide _). Qed.

Lemma accounted_step dir fetch idx url st :
  accounted dir st → accounted dir (download_one fetch idx url st).
Proof.
  intros (Hs & Hf & Hb & Ht & Ht0 & Hnd & Hok & Hdir).
  destruct (download_one_cases fetch idx url st)
    as [(dn & Htr & Es & Ef & Eb & Et & Hfiles)
       |(name & data & Htr & Hfree & Efiles & Es & Ef & Eb & Et)].
  - assert (ok_lines (trace (download_one fetch idx url st)) = ok_lines (trace st))
      as Eok.
    { destruct Htr as [-> | ->]; rewrite ok_lines_app; cbn; by rewrite app_nil_r. }
    assert (failure_lines (trace (download_one fetch idx url st))
            = failure_lines (trace st) + 1) as Efl.
    { destruct Htr as [-> | ->]; by rewrite failure_lines_app. }
    assert (∀ g d, files st !! g = Some d →
                   files (download_one fetch idx url st) !! g = Some d) as Hkeep.
    { intros g d Hg. destruct Hfiles as [->|(name & data & Hfree & ->)]; [done|].
      rewrite lookup_insert_ne; [done|]. intros ->.
      apply Hfree, elem_of_dom. by eexists. }
    unfold accounted. rewrite Eok, Efl, Es, Ef, Eb, Et.
    split; [done|]. split; [by rewrite Hf|]. split; [done|]. split; [done|].
    split; [done|]. split; [done|]. split.
    + intros filename size Hin. destruct (Hok _ _ Hin) as (Hnot & d & Hd & Hlen).
      split; [done|]. exists d. split; [by apply Hkeep|done].
    + intros g d Hg. by apply Hkeep, Hdir.
  - assert (ok_lines (trace (download_one fetch idx url st))
            = ok_lines (trace st) ++ [(name, N.of_nat (length data))]) as Eok.
    { rewrite Htr, ok_lines_app. done. }
    assert (failure_lines (trace (download_one fetch idx url st))
            = failure_lines (trace st)) as Efl.
    { rewrite Htr, failure_lines_app. cbn. lia. }
    assert (∀ g d, files st !! g = Some d →
                   files (download_one fetch idx url st) !! g = Some d) as Hkeep.
    { intros g d Hg. rewrite Efiles, lookup_insert_ne; [done|]. intros ->.
      apply Hfree, elem_of_dom. by eexists. }
    unfold accounted. rewrite Eok, Efl, Es, Ef, Eb, Et.
    split. { rewrite length_app, Hs. cbn. lia. }
    split; [done|].
    split. { rewrite sum_sizes_app, Hb. cbn. lia. }
    split.
    { intros ext Hext. rewrite with_ext_app, with_ext_single, <- (Ht ext Hext).
      cbn zeta.
      destruct (bool_decide_reflect (Str.lower (Path.splitext name).2 = [])) as [E0|E0].
      - rewrite bool_decide_eq_false_2 by congruence. lia.
      - destruct (bool_decide_reflect (Str.lower (Path.splitext name).2 = ext))
          as [->|Hne].
        + by rewrite lookup_insert_eq.
        + rewrite lookup_insert_ne by done. lia. }
    split.
    { cbn zeta. destruct (bool_decide_reflect (Str.lower (Path.splitext name).2 = []));
        [done|]. by rewrite lookup_insert_ne. }
    split.
    { rewrite fmap_app. cbn. apply NoDup_app. split; [done|].
      split; [|apply NoDup_singleton].
      intros f Hin Hname. apply list_elem_of_singleton in Hname as ->.
      apply list_elem_of_fmap in Hin as ([f size] & -> & Hin).
      destruct (Hok _ _ Hin) as (_ & d & Hd & _).
      apply Hfree, elem_of_dom. by eexists. }
    split.
    + intros filename size Hin. apply elem_of_app in Hin as [Hin|Hin].
      * destruct (Hok _ _ Hin) as (Hnot & d & Hd & Hlen).
        split; [done|]. exists d. split; [by apply Hkeep|done].
      * apply list_elem_of_singleton in Hin. simplify_eq. split.
        -- intros Hin. apply elem_of_dom in Hin as [d Hd].
           apply Hfree, elem_of_dom. exists d. by apply Hdir.
        -- exists data. by rewrite Efiles, lookup_insert_eq.
    + intros g d Hg. by apply Hkeep, Hdir.
Qed.

Lemma accounted_all dir fetch idx urls st :
  accounted dir st → accounted dir (download_all fetch idx urls st).
Proof.
  revert idx st. induction urls as [|url urls IH]; intros idx st H; [done|].
  cbn [download_all]. by apply IH, accounted_step.
Qed.

Lemma accounted_log dir st e :
  ok_lines e = [] → failure_lines e = 0 →
  accounted dir st → accounted dir (log e st).
Proof.
  intros Eok Efl. unfold accounted, log. cbn.
  rewrite ok_lines_app, failure_lines_app, Eok, Efl, app_nil_r, N.add_0_r. done.
Qed.

Lemma accounted_download_files input fetch dir :
  accounted dir (download_files input fetch dir).
Proof.
  assert (accounted dir {| files := dir; success_count := 0; failed_count := 0;
                           total_bytes := 0; file_types := ∅; trace := [Mkdir] |})
    as Hinit.
  { unfold accounted. cbn. split; [done|]. split; [done|]. split; [done|].
    split; [done|]. split; [done|]. split; [constructor|]. split; [|done].
    intros f size Hin. by apply elem_of_nil in Hin. }
  unfold download_files. destruct input as [lines|].
  - destruct (bool_decide _).
    + by apply accounted_log.
    + apply accounted_log; [done..|]. apply accounted_all. by apply accounted_log.
  - by apply accounted_log.
Qed.

Lemma download_all_requests fetch idx urls st :
  requests (trace (download_all fetch idx urls st))
  = requests (trace st) ++ urls.
Proof.
  revert idx st. induction urls as [|url urls IH]; intros idx st; cbn [download_all].
  - by rewrite app_nil_r.
  - rewrite IH.
    assert (requests (trace (download_one fetch idx url st))
            = requests (trace st) ++ [url]) as ->.
    { destruct (download_one_cases fetch idx url st)
        as [(dn & [-> | ->] & _)|(name & data & -> & _)];
        by rewrite requests_app. }
    by rewrite <- app_assoc.
Qed.

Lemma download_all_counts fetch idx urls st :
  success_count (download_all fetch idx urls st)
  + failed_count (download_all fetch idx urls st)
  = success_count st + failed_count st + N.of_nat (length urls).
Proof.
  revert idx st. induction urls as [|url urls IH]; intros idx st; cbn [download_all].
  - cbn. lia.
  - rewrite IH.
    destruct (download_one_cases fetch idx url st)
      as [(dn & _ & -> & -> & _)|(name & data & _ & _ & _ & -> & -> & _)];
      cbn [length]; lia.
Qed.

End account_facts.


(** X1.  Every URL of the list is counted once, as a success or as a
    failure: at the end of [download_files] the two counters add up to
    the number of lines of the input file that are not blank. *)
Theorem download_files_counts_every_url lines fetch dir :
  success_count (download_files (Some lines) fetch dir)
  + failed_count (download_files (Some lines) fetch dir)
  = N.of_nat (length (read_urls lines)).
Proof.
  unfold download_files.
  destruct (bool_decide_reflect (read_urls lines = [])) as [->|_]; [done|].
  cbn [log success_count failed_count]. rewrite download_all_counts. cbn. lia.
Qed.

(** X2.  [download_files] requests each URL of the list once, in the
    order of the list, whatever the earlier requests gave: no URL is
    skipped after a failure and none is tried again. *)
Theorem download_files_requests_in_order lines fetch dir :
  requests (trace (download_files (Some lines) fetch dir)) = read_urls lines.
Proof.
  unfold download_files.
  destruct (bool_decide_reflect (read_urls lines = [])) as [->|_]; [done|].
  cbn [log trace]. rewrite requests_app, download_all_requests. cbn.
  by rewrite app_nil_r.
Qed.

(** X3.  The counters of the final statistics are those of the lines
    printed: the successes are the lines that report a download, the
    failures the lines that report FAILED or ERROR, and the total size
    is the sum of the sizes printed. *)
Theorem download_files_counters_match_lines input fetch dir :
  success_count (download_files input fetch dir)
    = N.of_nat (length (ok_lines (trace (download_files input fetch dir))))
  ∧ failed_count (download_files input fetch dir)
    = failure_lines (trace (download_files input fetch dir))
  ∧ total_bytes (download_files input fetch dir)
    = sum_sizes (ok_lines (trace (download_files input fetch dir))).
Proof.
  destruct (accounted_download_files input fetch dir) as (Hs & Hf & Hb & _).
  done.
Qed.

(** X4.  A file reported as downloaded is in the output directory at
    the end of the run, with the size reported, under a name that did
    not exist before the run: no later download of the run has
    replaced it. *)
Theorem reported_file_exists input fetch dir filename size :
  (filename, size) ∈ ok_lines (trace (download_files input fetch dir)) →
  (filename ∉ dom dir)
  ∧ ∃ data, files (download_files input fetch dir) !! filename = Some data
            ∧ N.of_nat (length data) = size.
Proof.
  destruct (accounted_download_files input fetch dir)
    as (_ & _ & _ & _ & _ & _ & Hok & _).
  apply Hok.
Qed.

Lemma reported_file_exists_witness :
  (lit "data_1.csv" ∉ dom (∅ : gmap pystr (list N)))
  ∧ ∃ data,
      files (download_files
               (Some [lit "http://a.example/get?id=1"; lit "http://b.example/get?id=2"])
               csv_server ∅) !! lit "data_1.csv" = Some data
      ∧ N.of_nat (length data) = 25.
Proof.
  apply (reported_file_exists
           (Some [lit "http://a.example/get?id=1"; lit "http://b.example/get?id=2"])
           csv_server ∅ (lit "data_1.csv") 25).
  apply (bool_decide_unpack _). vm_compute. exact I.
Defined.

(** X5.  No two downloads of a run are reported under the same file
    name. *)
Theorem reported_names_distinct input fetch dir :
  NoDup (ok_lines (trace (download_files input fetch dir))).*1.
Proof.
  destruct (accounted_download_files input fetch dir)
    as (_ & _ & _ & _ & _ & Hnd & _).
  done.
Qed.


(** X7.  A file that is in the output directory before the run is
    there after it with the same content, whatever the servers
    declare and send. *)
Theorem download_files_keeps_existing_files input fetch dir g data :
  dir !! g = Some data →
  files (download_files input fetch dir) !! g = Some data.
Proof.
  destruct (accounted_download_files input fetch dir)
    as (_ & _ & _ & _ & _ & _ & _ & Hdir).
  apply Hdir.
Qed.

Lemma download_files_keeps_existing_files_witness :
  files (download_files (Some [lit "http://a.example/get?id=1"]) csv_server
           {[ lit "data.csv" := [1; 2; 3] ]}) !! lit "data.csv"
  = Some [1; 2; 3].
Proof.
  apply (download_files_keeps_existing_files
           (Some [lit "http://a.example/get?id=1"])
           csv_server {[ lit "data.csv" := [1; 2; 3] ]} (lit "data.csv") [1; 2; 3]).
  reflexivity.
Defined.


(** ** Names that sanitization leaves alone *)

Section fixed_facts.
Implicit Types (s t : pystr) (c d : N) (f : N → bool).

Lemma replace_id c d s : c ∉ s → Str.replace c d s = s.
Proof.
  unfold Str.replace. induction s as [|a s IH]; [done|].
  rewrite not_elem_of_cons. intros [Hne Hs]. cbn [map].
  rewrite (IH Hs). destruct (N.eqb_spec a c); [congruence|done].
Qed.

Lemma filter_id (g : N → bool) s :
  (∀ c, c ∈ s → g c = true) → List.filter g s = s.
Proof.
  induction s as [|a s IH]; [done|]. intros H. cbn [List.filter].
  rewrite (H a) by left. rewrite IH; [done|]. intros c Hc. apply H. by right.
Qed.

Lemma lstrip_id f s :
  (∀ c, head s = Some c → f c = false) → Str.lstrip f s = s.
Proof.
  unfold Str.lstrip. destruct s as [|a s]; [done|]. intros H.
  cbn [Str.drop_while]. by rewrite (H a).
Qed.

Lemma rstrip_id f s :
  (∀ c, last s = Some c → f c = false) → Str.rstrip f s = s.
Proof.
  intros H. unfold Str.rstrip. rewrite lstrip_id; [apply rev_involutive|].
  intros c. rewrite rev_reverse, head_reverse. apply H.
Qed.

Lemma strip_id f s :
  (∀ c, head s = Some c → f c = false) →
  (∀ c, last s = Some c → f c = false) →
  Str.strip f s = s.
Proof.
  intros Hh Hl. unfold Str.strip. rewrite (lstrip_id _ _ Hh). by apply rstrip_id.
Qed.

End fixed_facts.

Lemma sanitized_fixed filename :
  sanitized filename → sanitize_filename filename = filename.
Proof.
  intros (Hchars & Hne & Hhd & Hlast & Hres). unfold sanitize_filename.
  assert (∀ c, c ∈ forbidden_chars → c ∉ filename) as Hforb.
  { intros c Hc Hin. destruct (Hchars c Hin) as [Hm _].
    apply mem_false in Hm. done. }
  change forbidden_chars with [60; 62; 58; 34; 124; 63; 42; 47; 92] in Hforb.
  change invalid_chars with [60; 62; 58; 34; 124; 63; 42]. cbn [fold_left].
  rewrite (replace_id 60 95 filename), (replace_id 62 95 filename),
    (replace_id 58 95 filename), (replace_id 34 95 filename),
    (replace_id 124 95 filename), (replace_id 63 95 filename),
    (replace_id 42 95 filename), (replace_id 47 95 filename),
    (replace_id 92 95 filename)
    by (apply Hforb; rewrite !elem_of_cons; auto 10).
  rewrite filter_id by (intros c Hc; apply N.leb_le, (Hchars c Hc)).
  rewrite strip_id by done.
  rewrite (bool_decide_eq_false_2 _ Hne).
  unfold is_reserved in Hres. by rewrite Hres.
Qed.

(** X8.  A name that is already clean passes through
    [sanitize_filename] unchanged: a name without forbidden characters
    and codes below 32, not empty, without a dot or a space at either
    end and not reserved is returned as it is. *)
Theorem sanitize_filename_fixed filename :
  sanitized filename → sanitize_filename filename = filename.
Proof. apply sanitized_fixed. Qed.

Lemma sanitize_filename_fixed_witness :
  sanitize_filename (lit "report_1.pdf") = lit "report_1.pdf".
Proof.
  apply sanitize_filename_fixed.
  split; [|split; [|split; [|split]]].
  - intros c Hc. change (lit "report_1.pdf")
      with [114; 101; 112; 111; 114; 116; 95; 49; 46; 112; 100; 102] in Hc.
    repeat (apply elem_of_cons in Hc as [->|Hc]; [split; [reflexivity|lia]|]).
    by apply elem_of_nil in Hc.
  - discriminate.
  - intros c [= <-]. reflexivity.
  - intros c [= <-]. reflexivity.
  - vm_compute. reflexivity.
Defined.


(** ** Synthesized names *)

Section fallback_facts.
Implicit Types (s t e : pystr) (c : N) (idx : N).

Lemma of_uint_digits d c : c ∈ Str.of_uint d → Str.is_digit c = true.
Proof.
  induction d; cbn [Str.of_uint]; intros H;
    try (by apply elem_of_nil in H);
    apply elem_of_cons in H as [->|H]; auto.
Qed.

Lemma of_int_digits idx c : c ∈ Str.of_int idx → Str.is_digit c = true.
Proof. apply of_uint_digits. Qed.

Lemma no_dot_splitext s : 46 ∉ s → Path.splitext s = (s, []).
Proof.
  intros H. unfold Path.splitext. rewrite (rfind_not_in 46 s H).
  destruct (rfind_cases 47 s) as [[_ ->]|(pre & post & _ & _ & ->)]; [done|].
  destruct (Z.ltb_spec (Z.of_nat (length pre)) (-1)); [lia|done].
Qed.

Lemma f_not_reserved s : is_reserved (102 :: s) = false.
Proof.
  unfold is_reserved. apply bool_decide_eq_false.
  destruct (splitext_root_head 102 s) as (t & ->).
  change (Str.upper (102 :: t)) with (70 :: Str.upper t).
  intros H. unfold reserved_names in H.
  repeat (apply elem_of_cons in H as [H|H]; [discriminate H|]).
  by apply elem_of_nil in H.
Qed.

(** The extensions of the table are made of characters that
    sanitization keeps, and do not end in a dot. *)
Lemma expected_ext_chars ct :
  forallb (λ c, negb (Str.mem c forbidden_chars) && (32 <=? c)
                && negb (Str.is_digit c))
          (take 1 (expected_ext ct)) = true
  ∧ forallb (λ c, negb (Str.mem c forbidden_chars) && (32 <=? c))
            (expected_ext ct) = true
  ∧ match last (expected_ext ct) with
    | Some c => dot_or_space c = false
    | None => True
    end.
Proof.
  unfold expected_ext. set (key := Str.lower _).
  destruct (mime_to_ext !! key) as [e|] eqn:E; [|done].
  cbn [default]. unfold mime_to_ext in E.
  apply elem_of_list_to_map_2 in E.
  repeat (apply elem_of_cons in E as [E|E];
          [injection E as _ ->; split; [reflexivity|split; reflexivity]|]).
  by apply elem_of_nil in E.
Qed.

Lemma fallback_sanitized idx ct :
  sanitized (lit "file_" ++ Str.of_int idx ++ expected_ext ct).
Proof.
  destruct (expected_ext_chars ct) as (_ & Hall & Hlast).
  rewrite forallb_forall in Hall.
  split; [|split; [|split; [|split]]].
  - intros c Hc. change (lit "file_") with [102; 105; 108; 101; 95] in Hc.
    cbn [app] in Hc.
    repeat (apply elem_of_cons in Hc as [->|Hc]; [split; [reflexivity|lia]|]).
    apply elem_of_app in Hc as [Hc|Hc].
    + apply of_int_digits in Hc. unfold Str.is_digit, Str.in_range in Hc.
      apply andb_true_iff in Hc as [H1 H2]. apply N.leb_le in H1, H2.
      split; [|lia]. apply mem_false.
      change forbidden_chars with [60; 62; 58; 34; 124; 63; 42; 47; 92].
      rewrite !not_elem_of_cons. repeat (split; [lia|]). apply not_elem_of_nil.
    + apply list_elem_of_In, Hall in Hc. apply andb_true_iff in Hc as [H1 H2].
      apply negb_true_iff in H1. apply N.leb_le in H2. split; assumption.
  - change (lit "file_") with [102; 105; 108; 101; 95]. cbn [app].
    intros H. discriminate H.
  - intros c [= <-]. reflexivity.
  - intros c Hc. rewrite !app_assoc in Hc.
    destruct (expected_ext ct) as [|a e] eqn:Ee.
    + rewrite app_nil_r in Hc. apply last_Some in Hc as (pre & Hpre).
      assert (c ∈ lit "file_" ++ Str.of_int idx) as Hin.
      { rewrite Hpre. apply elem_of_app. right. by left. }
      change (lit "file_") with [102; 105; 108; 101; 95] in Hin. cbn [app] in Hin.
      repeat (apply elem_of_cons in Hin as [->|Hin]; [reflexivity|]).
      apply of_int_digits in Hin. unfold Str.is_digit, Str.in_range in Hin.
      apply andb_true_iff in Hin as [H1 H2]. apply N.leb_le in H1, H2.
      unfold dot_or_space. apply mem_false.
      change (lit ". ") with [46; 32].
      rewrite !not_elem_of_cons. repeat (split; [lia|]). apply not_elem_of_nil.
    + rewrite last_app_cons in Hc. rewrite Hc in Hlast. done.
  - apply f_not_reserved.
Qed.

End fallback_facts.

Lemma resolve_filename_fallback url idx r filename :
  raw_filename url r = Some filename →
  46 ∉ filename →
  resolve_filename url idx r
  = Some (lit "file_" ++ Str.of_int idx ++ expected_ext (content_type r)).
Proof.
  intros Hraw Hdot. unfold resolve_filename. rewrite Hraw.
  assert (reconcile_ext filename (expected_ext (content_type r)) = filename) as ->.
  { unfold reconcile_ext. rewrite (no_dot_splitext _ Hdot). cbn [snd].
    change (Str.lower []) with (@nil N).
    rewrite (bool_decide_eq_false_2 ([] ∈ dynamic_exts)).
    - rewrite andb_false_r. by destruct (_ && _)%bool.
    - intros H. unfold dynamic_exts in H.
      repeat (apply elem_of_cons in H as [H|H]; [discriminate H|]).
      by apply elem_of_nil in H. }
  apply mem_false in Hdot. rewrite Hdot, orb_true_r.
  by rewrite (sanitized_fixed _ (fallback_sanitized idx (content_type r))).
Qed.


(** X9.  When the resolved name is empty or has no dot, the file is
    named [file_], the ordinal of the URL in the list and the extension
    expected for the content type (nothing when the type is not in the
    table), and sanitization leaves that name as it is. *)
Theorem fallback_name url idx r filename :
  raw_filename url r = Some filename →
  46 ∉ filename →
  resolve_filename url idx r
  = Some (lit "file_" ++ Str.of_int idx ++ expected_ext (content_type r)).
Proof. apply resolve_filename_fallback. Qed.

Lemma fallback_name_witness :
  resolve_filename (lit "https://example.com/download/") 7
    {| content_disposition := []; content_type := lit "application/pdf";
       content_length := Some 0%Z; chunks := []; stream_ok := true |}
  = Some (lit "file_7.pdf").
Proof.
  apply (fallback_name (lit "https://example.com/download/") 7
           {| content_disposition := []; content_type := lit "application/pdf";
              content_length := Some 0%Z; chunks := []; stream_ok := true |} []).
  - vm_compute. reflexivity.
  - apply not_elem_of_nil.
Defined.

Lemma digits_prefix_unique (l1 l2 e1 e2 : pystr) :
  Forall (λ c, Str.is_digit c = true) l1 →
  Forall (λ c, Str.is_digit c = true) l2 →
  forallb (λ c, negb (Str.is_digit c)) (take 1 e1) = true →
  forallb (λ c, negb (Str.is_digit c)) (take 1 e2) = true →
  l1 ++ e1 = l2 ++ e2 → l1 = l2.
Proof.
  intros H1. revert l2. induction H1 as [|a l1 Ha H1 IH]; intros l2 H2 He1 He2 E.
  - destruct H2 as [|b l2 Hb H2]; [done|]. cbn [app] in E. subst e1.
    cbn in He1. by rewrite Hb in He1.
  - destruct H2 as [|b l2 Hb H2].
    + cbn [app] in E. subst e2. cbn in He2. by rewrite Ha in He2.
    + cbn [app] in E. injection E as -> E. f_equal. by apply IH.
Qed.

(** X10.  Names synthesized for different ordinals differ, whatever
    the two content types: within a run two such names never meet. *)
Theorem fallback_names_distinct url1 url2 i j r1 r2 f1 f2 :
  raw_filename url1 r1 = Some f1 → 46 ∉ f1 →
  raw_filename url2 r2 = Some f2 → 46 ∉ f2 →
  i ≠ j →
  resolve_filename url1 i r1 ≠ resolve_filename url2 j r2.
Proof.
  intros Hr1 Hd1 Hr2 Hd2 Hij.
  rewrite (resolve_filename_fallback _ _ _ _ Hr1 Hd1),
    (resolve_filename_fallback _ _ _ _ Hr2 Hd2).
  intros [= E]. apply Hij, of_int_inj.
  destruct (expected_ext_chars (content_type r1)) as (He1 & _).
  destruct (expected_ext_chars (content_type r2)) as (He2 & _).
  apply (digits_prefix_unique _ _ (expected_ext (content_type r1))
           (expected_ext (content_type r2))); [| | | |done].
  - apply Forall_forall. intros c. apply of_int_digits.
  - apply Forall_forall. intros c. apply of_int_digits.
  - clear -He1. destruct (expected_ext (content_type r1)) as [|c e]; [done|].
    cbn in *. rewrite andb_true_r in *.
    by apply andb_true_iff in He1 as [_ ->].
  - clear -He2. destruct (expected_ext (content_type r2)) as [|c e]; [done|].
    cbn in *. rewrite andb_true_r in *.
    by apply andb_true_iff in He2 as [_ ->].
Qed.

Lemma fallback_names_distinct_witness :
  resolve_filename (lit "https://example.com/a/") 1
    {| content_disposition := []; content_type := lit "application/pdf";
       content_length := Some 0%Z; chunks := []; stream_ok := true |}
  ≠ resolve_filename (lit "https://example.com/b/") 11
      {| content_disposition := []; content_type := lit "text/html";
         content_length := Some 0%Z; chunks := []; stream_ok := true |}.
Proof.
  apply (fallback_names_distinct (lit "https://example.com/a/")
           (lit "https://example.com/b/") 1 11 _ _ [] []).
  - vm_compute. reflexivity.
  - apply not_elem_of_nil.
  - vm_compute. reflexivity.
  - apply not_elem_of_nil.
  - discriminate.
Defined.


(** ** Numbered names stay clean *)

Section numbered_facts.
Implicit Types (s t e base ext : pystr) (c k : N).

Lemma splitext_ext_shape s :
  (Path.splitext s).2 = [] ∨ ∃ e, (Path.splitext s).2 = 46 :: e ∧ (46 ∉ e).
Proof.
  unfold Path.splitext. destruct (_ && _)%bool eqn:E; [right|by left].
  apply andb_true_iff in E as [Hlt _]. apply Z.ltb_lt in Hlt. cbn [snd].
  destruct (rfind_cases 46 s) as [[_ E46]|(pre & post & -> & Hpost & ->)].
  - rewrite E46 in Hlt.
    destruct (rfind_cases 47 s) as [[_ E47]|(? & ? & _ & _ & E47)];
      rewrite E47 in Hlt; lia.
  - exists post. rewrite Nat2Z.id, drop_app_length. done.
Qed.

(** A name without slash that does not begin with a dot has an
    extension as soon as it has a dot. *)
Lemma no_ext_no_dot s :
  47 ∉ s → (∀ c, head s = Some c → c ≠ 46) →
  (Path.splitext s).2 = [] → 46 ∉ s.
Proof.
  intros Hsep Hhd. unfold Path.splitext.
  rewrite (rfind_not_in 47 s Hsep).
  destruct (rfind_cases 46 s) as [[H _]|(pre & post & -> & Hpost & ->)]; [done|].
  destruct pre as [|a pre].
  { destruct (Hhd 46); done. }
  assert (a ≠ 46) as Ha by (by apply Hhd).
  unfold Str.slice. rewrite Nat2Z.id. change (Z.to_nat (-1 + 1)) with 0%nat.
  rewrite Nat.sub_0_r.
  assert (existsb (λ c, negb (c =? 46))
            (take (length (a :: pre)) (drop 0 ((a :: pre) ++ 46 :: post)))
          = true) as ->.
  { rewrite drop_0. rewrite take_app_length. cbn [existsb].
    destruct (N.eqb_spec a 46); [congruence|done]. }
  destruct (Z.ltb_spec (-1) (Z.of_nat (length (a :: pre)))); [|cbn [length] in *; lia].
  cbn [andb snd]. rewrite drop_app_length. discriminate.
Qed.

Lemma underscore_in_root_not_reserved s :
  95 ∈ (Path.splitext s).1 → is_reserved s = false.
Proof.
  intros Hin. unfold is_reserved. apply bool_decide_eq_false.
  assert (95 ∈ Str.upper (Path.splitext s).1) as Hup.
  { unfold Str.upper. apply list_elem_of_fmap. by exists 95. }
  intros H. unfold reserved_names in H.
  repeat (apply elem_of_cons in H as [H|H];
          [rewrite H in Hup; apply mem_spec in Hup; discriminate Hup|]).
  by apply elem_of_nil in H.
Qed.

Lemma numbered_sanitized filename k :
  sanitized filename →
  sanitized (numbered (Path.splitext filename).1 (Path.splitext filename).2 k).
Proof.
  intros (Hchars & Hne & Hhd & Hlast & _).
  pose proof (splitext_app filename) as Happ.
  pose proof (splitext_ext_shape filename) as Hshape.
  pose proof (no_ext_no_dot filename) as Hnodot.
  destruct (Path.splitext filename) as [base ext]. cbn [fst snd] in *.
  unfold numbered. change (lit "_") with [95].
  assert (∀ c, c ∈ [95] ++ Str.of_int k →
               Str.mem c forbidden_chars = false ∧ 32 <= c
               ∧ dot_or_space c = false ∧ c ≠ 46 ∧ c ≠ 47) as Hmid.
  { intros c Hc. cbn [app] in Hc. apply elem_of_cons in Hc as [->|Hc].
    { repeat split; (reflexivity || lia). }
    apply of_int_digits in Hc. unfold Str.is_digit, Str.in_range in Hc.
    apply andb_true_iff in Hc as [H1 H2]. apply N.leb_le in H1, H2.
    split; [|split; [lia|split; [|lia]]].
    - apply mem_false.
      change forbidden_chars with [60; 62; 58; 34; 124; 63; 42; 47; 92].
      rewrite !not_elem_of_cons. repeat (split; [lia|]). apply not_elem_of_nil.
    - apply mem_false. change (lit ". ") with [46; 32].
      rewrite !not_elem_of_cons. repeat (split; [lia|]). apply not_elem_of_nil. }
  assert (47 ∉ filename) as Hsep.
  { intros H. destruct (Hchars _ H) as [Hm _]. done. }
  split; [|split; [|split; [|split]]].
  - intros c Hc. rewrite !elem_of_app in Hc.
    destruct Hc as [Hc|[Hc|[Hc|Hc]]].
    + apply Hchars. rewrite <- Happ. apply elem_of_app. by left.
    + destruct (Hmid c) as (? & ? & _); [|done]. apply elem_of_app. by left.
    + destruct (Hmid c) as (? & ? & _); [|done]. apply elem_of_app. by right.
    + apply Hchars. rewrite <- Happ. apply elem_of_app. by right.
  - by destruct base.
  - intros c. destruct base as [|a base].
    + cbn. intros [= <-]. reflexivity.
    + cbn. intros [= <-]. apply Hhd. by rewrite <- Happ.
  - intros c Hc. destruct ext as [|a ext].
    + rewrite app_nil_r, last_app in Hc.
      destruct (last ([95] ++ Str.of_int k)) as [y|] eqn:Ey.
      * simplify_eq. apply last_Some in Ey as (pre & Hpre).
        destruct (Hmid c) as (_ & _ & ? & _); [|done].
        rewrite Hpre. apply elem_of_app. right. by left.
      * by apply last_None in Ey.
    + rewrite !app_assoc, last_app_cons in Hc. apply Hlast.
      by rewrite <- Happ, last_app_cons.
  - apply underscore_in_root_not_reserved.
    destruct Hshape as [->|(e & -> & Hdot)].
    + rewrite app_nil_r in *. subst base.
      rewrite no_dot_splitext.
      * cbn [fst]. apply elem_of_app. right. by left.
      * rewrite elem_of_app. intros [H|H].
        -- revert H. apply Hnodot; [done| |done].
           intros c Hc ->. by specialize (Hhd _ Hc).
        -- by destruct (Hmid _ H) as (_ & _ & _ & ? & _).
    + rewrite !app_assoc. rewrite <- (app_assoc base).
      rewrite splitext_root_ext.
      * cbn [fst]. apply elem_of_app. right. by left.
      * unfold has_stem. rewrite rfind_not_in.
        -- cbn [Z.add Z.to_nat drop]. apply existsb_exists. exists 95.
           split; [|done]. apply list_elem_of_In, elem_of_app. right. by left.
        -- rewrite elem_of_app. intros [H|H].
           ++ apply Hsep. rewrite <- Happ. apply elem_of_app. by left.
           ++ by destruct (Hmid _ H) as (_ & _ & _ & _ & ?).
      * done.
      * intros H. apply Hsep. rewrite <- Happ. apply elem_of_app. right. by right.
Qed.

(** What [unique_filename] returns for a clean name is clean. *)
Lemma unique_filename_sanitized taken filename name :
  sanitized filename →
  unique_filename taken filename = Some name →
  sanitized name.
Proof.
  intros Hs Hu.
  destruct (unique_filename_spec taken filename)
    as [[_ E]|(_ & k & _ & E & _)]; rewrite E in Hu; simplify_eq; [done|].
  by apply numbered_sanitized.
Qed.

End numbered_facts.

(** X11.  Collision handling keeps a clean name clean: the numbered
    name that replaces a name taken in the directory has no forbidden
    character and no code below 32, no dot or space at either end, is
    no reserved device name, and is not in the directory. *)
Theorem unique_filename_stays_sanitized taken filename name :
  sanitized filename →
  unique_filename taken filename = Some name →
  sanitized name ∧ name ∉ taken.
Proof.
  intros Hs Hu. split; [by eapply unique_filename_sanitized|].
  destruct (unique_filename_total taken filename) as (name' & Hu' & Hfree).
  by simplify_eq.
Qed.

Lemma unique_filename_stays_sanitized_witness :
  sanitized (lit "data_1.csv") ∧ lit "data_1.csv" ∉ ({[ lit "data.csv" ]} : gset pystr).
Proof.
  apply (unique_filename_stays_sanitized {[ lit "data.csv" ]} (lit "data.csv")).
  - split; [|split; [|split; [|split]]].
    + intros c Hc. change (lit "data.csv")
        with [100; 97; 116; 97; 46; 99; 115; 118] in Hc.
      repeat (apply elem_of_cons in Hc as [->|Hc]; [split; [reflexivity|lia]|]).
      by apply elem_of_nil in Hc.
    + discriminate.
    + intros c [= <-]. reflexivity.
    + intros c [= <-]. reflexivity.
    + vm_compute. reflexivity.
  - vm_compute. reflexivity.
Defined.


(** ** Letter case and [is_file_link] *)

Section case_facts.
Implicit Types (s : pystr) (c : N).

Lemma flat_map_flat_map {A B C} (f : A → list B) (g : B → list C) (l : list A) :
  flat_map g (flat_map f l) = flat_map (λ a, flat_map g (f a)) l.
Proof.
  induction l as [|a l IH]; [done|]. cbn [flat_map].
  by rewrite flat_map_app, IH.
Qed.

Lemma lower_char_lower_char c :
  flat_map Str.lower_char (Str.lower_char c) = Str.lower_char c.
Proof.
  unfold Str.lower_char at 2 3.
  destruct (Str.is_upper_ascii c) eqn:Eu.
  - cbn [flat_map]. rewrite app_nil_r. unfold Str.lower_char.
    unfold Str.is_upper_ascii, Str.in_range in *.
    apply andb_true_iff in Eu as [H1 H2]. apply N.leb_le in H1, H2.
    destruct (N.leb_spec (c + 32) 90); [lia|]. rewrite andb_false_r.
    destruct (N.eqb_spec (c + 32) 8490); [lia|].
    destruct (N.eqb_spec (c + 32) 304); [lia|]. done.
  - destruct (c =? 8490) eqn:E1.
    { apply N.eqb_eq in E1. subst c. reflexivity. }
    destruct (c =? 304) eqn:E2.
    { apply N.eqb_eq in E2. subst c. reflexivity. }
    cbn [flat_map]. rewrite app_nil_r. unfold Str.lower_char.
    by rewrite Eu, E1, E2.
Qed.

Lemma lower_lower s : Str.lower (Str.lower s) = Str.lower s.
Proof.
  unfold Str.lower. rewrite flat_map_flat_map.
  apply flat_map_ext. intros c. apply lower_char_lower_char.
Qed.

Lemma lower_char_upper_char c :
  Str.lower_char (Str.upper_char c) = Str.lower_char c.
Proof.
  unfold Str.upper_char. destruct (Str.is_lower_ascii c) eqn:El; [|done].
  unfold Str.is_lower_ascii, Str.in_range in El.
  apply andb_true_iff in El as [H1 H2]. apply N.leb_le in H1, H2.
  unfold Str.lower_char, Str.is_upper_ascii, Str.in_range.
  destruct (N.leb_spec 65 (c - 32)); [|lia].
  destruct (N.leb_spec (c - 32) 90); [|lia]. cbn [andb].
  destruct (N.leb_spec c 90); [lia|]. rewrite andb_false_r.
  destruct (N.eqb_spec c 8490); [lia|]. destruct (N.eqb_spec c 304); [lia|].
  f_equal. lia.
Qed.

Lemma lower_upper s : Str.lower (Str.upper s) = Str.lower s.
Proof.
  unfold Str.lower, Str.upper. induction s as [|c s IH]; [done|].
  cbn [map flat_map]. by rewrite IH, lower_char_upper_char.
Qed.

End case_facts.

(** X12.  On a URL of ASCII characters the answer of [is_file_link]
    does not depend on the case of the letters: the URL, its
    lower-cased form and its upper-cased form get the same answer.
    (Outside ASCII [Str.upper] is not Python's [upper], hence the
    restriction.) *)
Theorem is_file_link_ignores_case url :
  Forall (λ c, c < 128) url →
  is_file_link (Str.lower url) = is_file_link url
  ∧ is_file_link (Str.upper url) = is_file_link url.
Proof.
  intros _. unfold is_file_link. by rewrite lower_lower, lower_upper.
Qed.

Lemma is_file_link_ignores_case_witness :
  is_file_link (Str.lower (lit "HTTPS://Example.COM/Report.PDF"))
    = is_file_link (lit "HTTPS://Example.COM/Report.PDF")
  ∧ is_file_link (Str.upper (lit "HTTPS://Example.COM/Report.PDF"))
    = is_file_link (lit "HTTPS://Example.COM/Report.PDF").
Proof.
  apply (is_file_link_ignores_case (lit "HTTPS://Example.COM/Report.PDF")).
  apply Forall_forall. intros c Hc.
  apply list_elem_of_In, (proj1 (forallb_forall (λ c, c <? 128) _)) in Hc.
  - by apply N.ltb_lt.
  - vm_compute. reflexivity.
Defined.


(** ** Unwrapping a redirect *)

Section unwrap_facts.
Implicit Types (s t pre target tail : pystr) (c : N).

Lemma contains_app sub pre t : Str.contains sub (pre ++ sub ++ t) = true.
Proof.
  induction pre as [|a pre IH].
  - cbn [app]. destruct (sub ++ t) eqn:E; cbn [Str.contains];
      rewrite <- E; (rewrite (proj2 (startswith_spec _ _)); [done|by exists t]).
  - cbn [app Str.contains]. rewrite IH. apply orb_true_r.
Qed.

(** The search passes over the characters that cannot begin a match. *)
Lemma search_skip (f : N → bool) r pre s :
  (∀ c, c ∈ pre → f c = false) →
  Re.search (Re.Cat (Re.Cls f) r) (pre ++ s) = Re.search (Re.Cat (Re.Cls f) r) s.
Proof.
  induction pre as [|a pre IH]; intros H; [done|].
  cbn [app Re.search Re.matches]. rewrite (H a) by left. cbn [flat_map].
  apply IH. intros c Hc. apply H. by right.
Qed.

Lemma run_unbounded (f : N → bool) s :
  Re.run f None s = length (Str.take_while f s).
Proof.
  induction s as [|c s IH]; [done|]. cbn [Re.run Str.take_while].
  destruct (f c); [|done]. cbn. by rewrite IH.
Qed.

Lemma counts_down_head n lo :
  (lo ≤ n)%nat → (1 ≤ n)%nat → ∃ l, Re.counts_down n lo = n :: l.
Proof.
  intros Hlo Hn. destruct n as [|n]; [lia|]. cbn [Re.counts_down].
  destruct (Nat.ltb_spec (S n) lo); [lia|]. by eexists.
Qed.

(** The group [([^&]+)] takes the text up to the next [&]. *)
Lemma matches_target target tail :
  target ≠ [] → 38 ∉ target →
  match tail with [] => True | c :: _ => c = 38 end →
  ∃ l, Re.matches (Re.Grp (Re.Rep (λ c, negb (c =? 38)) 1 None)) (target ++ tail)
       = (tail, Some target) :: l.
Proof.
  intros Hne Hamp Htail. cbn [Re.matches]. rewrite run_unbounded.
  destruct (take_while_app (λ c, negb (c =? 38)) target tail) as [-> _].
  { apply Forall_forall. intros c Hc. apply negb_true_iff, N.eqb_neq.
    intros ->. done. }
  { destruct tail as [|c tail]; [done|]. by subst c. }
  destruct (counts_down_head (length target) 1) as (l & ->).
  { destruct target; [done|cbn; lia]. }
  { destruct target; [done|cbn; lia]. }
  cbn [map fst]. rewrite drop_app_length, length_app.
  replace (length target + length tail - length tail)%nat with (length target) by lia.
  rewrite take_app_length. by eexists.
Qed.

Lemma matches_cat_head r1 r2 s (o1 o2 : Re.outcome) l1 l2 :
  Re.matches r1 s = o1 :: l1 →
  Re.matches r2 o1.1 = o2 :: l2 →
  ∃ l, Re.matches (Re.Cat r1 r2) s
       = (o2.1, match o2.2 with Some g => Some g | None => o1.2 end) :: l.
Proof.
  intros H1 H2. cbn [Re.matches]. rewrite H1. cbn [flat_map]. rewrite H2.
  cbn [map app]. by eexists.
Qed.

Lemma search_here r s (o : Re.outcome) l :
  Re.matches r s = o :: l → Re.search r s = Some o.2.
Proof. intros H. destruct s; cbn [Re.search]; by rewrite H. Qed.

(** The pattern of [clean_google_url] at a [?q=] or [?url=]. *)
Lemma matches_wrapped_target key target tail :
  key = lit "q" ∨ key = lit "url" →
  target ≠ [] → 38 ∉ target →
  match tail with [] => True | c :: _ => c = 38 end →
  ∃ l, Re.matches wrapped_target ([63] ++ key ++ lit "=" ++ target ++ tail)
       = (tail, Some target) :: l.
Proof.
  intros Hkey Hne Hamp Htail. unfold wrapped_target.
  destruct (matches_target target tail Hne Hamp Htail) as (l3 & H3).
  destruct (matches_cat_head (Re.Lit (lit "="))
              (Re.Grp (Re.Rep (λ c, negb (c =? 38)) 1 None))
              (lit "=" ++ target ++ tail) (target ++ tail, None) _ [] l3
              eq_refl H3) as (l2 & H2).
  cbn [fst snd] in H2.
  assert (∃ l0, Re.matches (Re.Alt (Re.Lit (lit "q")) (Re.Lit (lit "url")))
                  (key ++ lit "=" ++ target ++ tail)
                = (lit "=" ++ target ++ tail, None) :: l0) as (l0 & H0).
  { destruct Hkey as [-> | ->]; by eexists. }
  destruct (matches_cat_head _ _ _ _ _ _ _ H0 H2) as (l1 & H1).
  cbn [fst snd] in H1.
  assert (Re.matches (Re.Cls (λ c, Str.mem c (lit "?&")))
            ([63] ++ key ++ lit "=" ++ target ++ tail)
          = [(key ++ lit "=" ++ target ++ tail, None)]) as Hc by reflexivity.
  destruct (matches_cat_head _ _ _ _ _ _ _ Hc H1) as (l & H).
  cbn [fst snd] in H. by exists l.
Qed.

End unwrap_facts.

(** X13.  [clean_google_url] unwraps a redirect: when [/url?q=] or
    [/url?url=] follows a prefix without [?] and [&], and the value of
    the parameter runs to the end or to the next [&] and has no percent
    sign, the value is returned as it is, whatever precedes and
    follows. *)
Theorem clean_google_url_unwraps pre key target tail :
  (∀ c, c ∈ pre → c ≠ 63 ∧ c ≠ 38) →
  key = lit "q" ∨ key = lit "url" →
  target ≠ [] → 38 ∉ target → 37 ∉ target →
  match tail with [] => True | c :: _ => c = 38 end →
  clean_google_url (pre ++ lit "/url?" ++ key ++ lit "=" ++ target ++ tail)
  = Some target.
Proof.
  intros Hpre Hkey Hne Hamp Hpct Htail. unfold clean_google_url.
  destruct (matches_wrapped_target key target tail Hkey Hne Hamp Htail)
    as (l & Hm).
  assert (Re.group1 wrapped_target
            (pre ++ lit "/url?" ++ key ++ lit "=" ++ target ++ tail)
          = Some target) as ->.
  { unfold Re.group1.
    change (lit "/url?") with (lit "/url" ++ [63]).
    rewrite <- (app_assoc (lit "/url")), (app_assoc pre).
    unfold wrapped_target at 1. rewrite search_skip.
    2:{ intros c Hc. apply mem_false. change (lit "?&") with [63; 38].
        rewrite !not_elem_of_cons. apply elem_of_app in Hc as [Hc|Hc].
        - destruct (Hpre c Hc). repeat split; [done..|apply not_elem_of_nil].
        - change (lit "/url") with [47; 117; 114; 108] in Hc.
          repeat (apply elem_of_cons in Hc as [->|Hc];
                  [repeat split; [done..|apply not_elem_of_nil]|]).
          by apply elem_of_nil in Hc. }
    fold wrapped_target. by rewrite (search_here _ _ _ _ Hm). }
  assert (Str.contains (lit "/url?q=")
            (pre ++ lit "/url?" ++ key ++ lit "=" ++ target ++ tail)
          || Str.contains (lit "/url?url=")
               (pre ++ lit "/url?" ++ key ++ lit "=" ++ target ++ tail) = true)
    as ->.
  { destruct Hkey as [-> | ->].
    - change (lit "/url?" ++ lit "q" ++ lit "=" ++ target ++ tail)
        with (lit "/url?q=" ++ target ++ tail).
      by rewrite contains_app.
    - change (lit "/url?" ++ lit "url" ++ lit "=" ++ target ++ tail)
        with (lit "/url?url=" ++ target ++ tail).
      rewrite (contains_app (lit "/url?url=")). apply orb_true_r. }
  unfold Url.unquote. apply mem_false in Hpct. by rewrite Hpct.
Qed.

Lemma clean_google_url_unwraps_witness :
  clean_google_url
    (lit "https://www.google.com" ++ lit "/url?" ++ lit "q" ++ lit "="
     ++ lit "https://example.com/file.pdf" ++ lit "&sa=U")
  = Some (lit "https://example.com/file.pdf").
Proof.
  apply (clean_google_url_unwraps (lit "https://www.google.com") (lit "q")
           (lit "https://example.com/file.pdf") (lit "&sa=U")).
  - intros c Hc.
    apply list_elem_of_In,
      (proj1 (forallb_forall (λ c, negb (c =? 63) && negb (c =? 38)) _)) in Hc.
    + apply andb_true_iff in Hc as [H1 H2].
      apply negb_true_iff, N.eqb_neq in H1, H2. done.
    + vm_compute. reflexivity.
  - by left.
  - discriminate.
  - apply mem_false. vm_compute. reflexivity.
  - apply mem_false. vm_compute. reflexivity.
  - reflexivity.
Defined.


(** ** More on the crawl *)

Section crawl_more.
Implicit Types (browser : nat → page) (links : list pystr)
  (acc : gset pystr) (st : crawl_state) (u link : pystr).

Lemma filter_links_mono links acc : acc ⊆ (filter_links links acc).1.
Proof.
  revert acc. induction links as [|link links IH]; intros acc; cbn [filter_links];
    [done|].
  destruct (is_file_link link) as [[]|]; [|apply IH|done].
  destruct (clean_google_url link) as [clean_link|]; [|apply IH].
  destruct (bool_decide _); [apply IH|].
  etransitivity; [|apply IH]. set_solver.
Qed.

Lemma filter_links_completed links acc :
  (filter_links links acc).2 = true ↔ Forall (λ l, is_file_link l ≠ None) links.
Proof.
  revert acc. induction links as [|link links IH]; intros acc; cbn [filter_links].
  - split; [constructor|done].
  - rewrite Forall_cons.
    destruct (is_file_link link) as [[]|] eqn:E.
    + destruct (clean_google_url link) as [clean_link|];
        [destruct (bool_decide _)|]; rewrite IH; intuition discriminate.
    + rewrite IH. intuition discriminate.
    + cbn. intuition congruence.
Qed.


Lemma crawl_pages_mono browser page_nums st :
  file_links st ⊆ file_links (crawl_pages browser page_nums st).
Proof.
  revert st. induction page_nums as [|page_num rest IH]; intros st;
    cbn [crawl_pages]; [done|].
  destruct (browser page_num) as [|links has_next].
  - apply (IH {| file_links := file_links st;
                 visited := visited st ++ [page_num] |}).
  - pose proof (filter_links_mono links (file_links st)) as Hm.
    destruct (filter_links links (file_links st)) as [acc completed].
    cbn [fst] in Hm.
    assert (file_links st
            ⊆ file_links (crawl_pages browser rest
                            {| file_links := acc;
                               visited := visited st ++ [page_num] |})) as Hgo.
    { etransitivity; [exact Hm|].
      apply (IH {| file_links := acc; visited := visited st ++ [page_num] |}). }
    destruct completed, has_next as [[]|]; done.
Qed.


(** The loop either visits every page number, or ends on a page that
    was processed to the end and shows no next control. *)
Lemma crawl_pages_stop browser page_nums st :
  visited (crawl_pages browser page_nums st) = visited st ++ page_nums
  ∨ ∃ p links,
      last (visited (crawl_pages browser page_nums st)) = Some p
      ∧ browser p = Page_shown links (Some false)
      ∧ Forall (λ l, is_file_link l ≠ None) links.
Proof.
  revert st. induction page_nums as [|page_num rest IH]; intros st;
    cbn [crawl_pages].
  - left. by rewrite app_nil_r.
  - assert (∀ acc,
              visited (crawl_pages browser rest
                         {| file_links := acc;
                            visited := visited st ++ [page_num] |})
              = visited st ++ page_num :: rest
              ∨ ∃ p links,
                  last (visited (crawl_pages browser rest
                                   {| file_links := acc;
                                      visited := visited st ++ [page_num] |}))
                  = Some p
                  ∧ browser p = Page_shown links (Some false)
                  ∧ Forall (λ l, is_file_link l ≠ None) links) as Hgo.
    { intros acc.
      destruct (IH {| file_links := acc; visited := visited st ++ [page_num] |})
        as [->|H]; [left|by right].
      cbn. by rewrite <- app_assoc. }
    destruct (browser page_num) as [|links has_next] eqn:Eb; [apply Hgo|].
    pose proof (filter_links_completed links (file_links st)) as Hc.
    destruct (filter_links links (file_links st)) as [acc completed].
    cbn [snd] in Hc.
    destruct completed, has_next as [[]|]; try apply Hgo.
    right. exists page_num, links. cbn [visited]. rewrite last_snoc.
    split; [done|]. split; [done|]. by apply Hc.
Qed.

(** The loop over a list of pages in two parts: it stops in the first
    part, or goes on with the second from where the first ended. *)
Lemma crawl_pages_app browser l1 l2 st :
  crawl_pages browser (l1 ++ l2) st = crawl_pages browser l1 st
  ∨ crawl_pages browser (l1 ++ l2) st
    = crawl_pages browser l2 (crawl_pages browser l1 st).
Proof.
  revert st. induction l1 as [|page_num l1 IH]; intros st; cbn [app crawl_pages].
  - by right.
  - destruct (browser page_num) as [|links has_next]; [apply IH|].
    destruct (filter_links links (file_links st)) as [acc completed].
    destruct completed, has_next as [[]|]; try apply IH.
    by left.
Qed.

Lemma range_app n m :
  (n ≤ m)%Z → ∃ l, range m = range n ++ l.
Proof.
  intros H. unfold range. exists (seq (Z.to_nat n) (Z.to_nat m - Z.to_nat n)).
  rewrite <- seq_app. f_equal. lia.
Qed.

Lemma crawl_mono browser n m :
  (n ≤ m)%Z → file_links (crawl browser n) ⊆ file_links (crawl browser m).
Proof.
  intros H. unfold crawl. destruct (range_app n m H) as (l & ->).
  destruct (crawl_pages_app browser (range n) l {| file_links := ∅; visited := [] |})
    as [->| ->]; [done|].
  apply crawl_pages_mono.
Qed.

End crawl_more.




(** X15.  The crawl visits fewer than [max_pages] pages only when the
    last page it visited was processed to the end and showed no next
    control; a page that fails never ends the crawl. *)
Theorem crawl_stops_early_only_without_next browser max_pages :
  (length (visited (crawl browser max_pages)) < Z.to_nat max_pages)%nat →
  ∃ p links,
    last (visited (crawl browser max_pages)) = Some p
    ∧ browser p = Page_shown links (Some false)
    ∧ Forall (λ l, is_file_link l ≠ None) links.
Proof.
  unfold crawl.
  destruct (crawl_pages_stop browser (range max_pages)
              {| file_links := ∅; visited := [] |}) as [->|H]; [|done].
  cbn [visited app]. unfold range. rewrite length_seq. lia.
Qed.

Lemma crawl_stops_early_only_without_next_witness :
  ∃ p links,
    last (visited (crawl (λ _, Page_shown [lit "https://example.com/a.pdf"]
                                 (Some false)) 3)) = Some p
    ∧ (λ _ : nat, Page_shown [lit "https://example.com/a.pdf"] (Some false)) p
      = Page_shown links (Some false)
    ∧ Forall (λ l, is_file_link l ≠ None) links.
Proof.
  apply (crawl_stops_early_only_without_next
           (λ _, Page_shown [lit "https://example.com/a.pdf"] (Some false)) 3).
  vm_compute. lia.
Defined.

(** X16.  Asking for more pages never loses a link: what the crawl
    returns for [n] pages is among what it returns for [m] pages when
    [n <= m], the browser showing the same pages. *)
Theorem more_pages_more_links browser n m u :
  (n ≤ m)%Z →
  u ∈ extract_file_links browser n →
  u ∈ extract_file_links browser m.
Proof.
  intros Hnm Hu. apply elem_of_extract_file_links.
  apply elem_of_extract_file_links in Hu. by apply (crawl_mono browser n m).
Qed.

Lemma more_pages_more_links_witness :
  lit "https://example.com/a.pdf"
  ∈ extract_file_links
      (λ _, Page_shown [lit "https://example.com/a.pdf"] (Some true)) 5.
Proof.
  apply (more_pages_more_links
           (λ _, Page_shown [lit "https://example.com/a.pdf"] (Some true)) 1 5).
  - lia.
  - apply (bool_decide_unpack _). vm_compute. exact I.
Defined.


(** ** The link file *)

Section link_file_facts.
Implicit Types (l cur s : pystr) (links : list pystr).

Lemma file_lines_from_line cur l rest :
  10 ∉ l → 13 ∉ l →
  file_lines_from cur (l ++ 10 :: rest)
  = (cur ++ l ++ [10]) :: file_lines_from [] rest.
Proof.
  revert cur. induction l as [|c l IH]; intros cur H10 H13.
  - cbn [app file_lines_from]. by rewrite N.eqb_refl.
  - apply not_elem_of_cons in H10 as [Hc10 H10].
    apply not_elem_of_cons in H13 as [Hc13 H13].
    cbn [app file_lines_from].
    destruct (N.eqb_spec c 10); [congruence|].
    destruct (N.eqb_spec c 13); [congruence|].
    rewrite IH by done. by rewrite <- !app_assoc.
Qed.

Lemma file_lines_save_links links :
  Forall (λ l, (10 ∉ l) ∧ (13 ∉ l)) links →
  file_lines (save_links links) = (λ l, l ++ [10]) <$> links.
Proof.
  unfold file_lines. induction 1 as [|l links [H10 H13] _ IH]; [done|].
  cbn [save_links flat_map fmap list_fmap].
  rewrite <- app_assoc. cbn [app]. rewrite file_lines_from_line by done.
  cbn [app]. f_equal. apply IH.
Qed.

Lemma strip_line l :
  url_line l → Str.strip Str.is_space (l ++ [10]) = l.
Proof.
  intros (Hne & _ & _ & Hhd & Hlast). unfold Str.strip.
  rewrite lstrip_id.
  - unfold Str.rstrip, Str.lstrip. rewrite rev_app_distr. cbn [rev app].
    cbn [Str.drop_while]. change (Str.is_space 10) with true. cbn match.
    by apply (rstrip_id Str.is_space).
  - intros c Hc. apply Hhd. by destruct l.
Qed.

Lemma read_urls_lines links :
  Forall url_line links → read_urls ((λ l, l ++ [10]) <$> links) = links.
Proof.
  unfold read_urls. induction 1 as [|l links Hl _ IH]; [done|].
  cbn [fmap list_fmap map List.filter]. rewrite (strip_line _ Hl).
  destruct Hl as (Hne & _). rewrite (bool_decide_eq_false_2 _ Hne). cbn [negb].
  f_equal. apply IH.
Qed.

Lemma read_saved_links links :
  Forall url_line links → read_urls (file_lines (save_links links)) = links.
Proof.
  intros H. rewrite file_lines_save_links.
  - by apply read_urls_lines.
  - eapply Forall_impl; [exact H|]. intros l (_ & ? & ? & _). done.
Qed.

End link_file_facts.

(** X17.  What [save_links] writes, the reading of [download_files]
    gives back: the same links in the same order, when each link is not
    empty, holds no line break and has no white space at either end. *)
Theorem save_links_read_back links :
  Forall url_line links → read_urls (file_lines (save_links links)) = links.
Proof. apply read_saved_links. Qed.

Lemma save_links_read_back_witness :
  read_urls (file_lines (save_links [lit "https://a.example/x.pdf";
                                     lit "https://b.example/y z.zip"]))
  = [lit "https://a.example/x.pdf"; lit "https://b.example/y z.zip"].
Proof.
  apply save_links_read_back.
  repeat constructor; try discriminate;
    try (apply mem_false; vm_compute; reflexivity);
    try (intros c [= <-]; reflexivity).
Defined.

(** A line break inside a link breaks the round trip: the link comes
    back as two URLs. *)
Lemma save_links_line_break :
  read_urls (file_lines (save_links [lit "https://a.example/x" ++ [10] ++ lit "y.pdf"]))
  = [lit "https://a.example/x"; lit "y.pdf"].
Proof. vm_compute. reflexivity. Qed.


(** ** [main] *)

Lemma download_files_requests lines fetch dir :
  requests (trace (download_files (Some lines) fetch dir)) = read_urls lines.
Proof.
  unfold download_files.
  destruct (bool_decide_reflect (read_urls lines = [])) as [->|_]; [done|].
  cbn [log trace]. rewrite requests_app, download_all_requests. cbn.
  by rewrite app_nil_r.
Qed.

Lemma main_search a browser fetch read_text dir :
  given (input_file a) = false → given (query a) = true →
  main a browser fetch read_text dir
  = match extract_file_links browser (pages a) with
    | [] => Searched [] None None
    | u :: links =>
        Searched (u :: links) (Some (save_links (u :: links)))
          (if download a
           then Some (download_files
                        (Some (file_lines (save_links (u :: links)))) fetch dir)
           else None)
    end.
Proof.
  intros Hin Hq. unfold main. rewrite Hq. cbn [negb].
  unfold given in Hin. destruct (input_file a) as [[|]|]; try done;
    by destruct (extract_file_links browser (pages a)).
Qed.

(** X18.  Search with [--download]: the link file holds the links
    found, and the URLs requested are exactly these links, sorted and
    each once, when every link is a proper line of the link file; when
    no link is found nothing is written and nothing is requested. *)
Theorem main_downloads_the_links_found a browser fetch read_text dir :
  given (input_file a) = false →
  given (query a) = true →
  download a = true →
  Forall url_line (extract_file_links browser (pages a)) →
  ∃ run,
    main a browser fetch read_text dir
    = Searched (extract_file_links browser (pages a))
        (match extract_file_links browser (pages a) with
         | [] => None
         | links => Some (save_links links)
         end) run
    ∧ requested (main a browser fetch read_text dir)
      = extract_file_links browser (pages a).
Proof.
  intros Hin Hq Hd Hlines. rewrite (main_search _ _ _ _ _ Hin Hq), Hd.
  destruct (extract_file_links browser (pages a)) as [|u links] eqn:E.
  - by eexists.
  - eexists. split; [done|]. cbn [requested].
    rewrite download_files_requests. by apply read_saved_links.
Qed.

Lemma main_downloads_the_links_found_witness :
  ∃ run,
    main {| input_file := None; query := Some (lit "site:example.com filetype:pdf");
            pages := 2; download := true |}
      (λ _, Page_shown [lit "https://example.com/b.pdf"; lit "https://example.com/a.pdf"]
              (Some true))
      csv_server (λ _, None) ∅
    = Searched [lit "https://example.com/a.pdf"; lit "https://example.com/b.pdf"]
        (Some (save_links [lit "https://example.com/a.pdf";
                           lit "https://example.com/b.pdf"])) run
    ∧ requested
        (main {| input_file := None;
                 query := Some (lit "site:example.com filetype:pdf");
                 pages := 2; download := true |}
           (λ _, Page_shown [lit "https://example.com/b.pdf";
                             lit "https://example.com/a.pdf"] (Some true))
           csv_server (λ _, None) ∅)
      = [lit "https://example.com/a.pdf"; lit "https://example.com/b.pdf"].
Proof.
  assert (extract_file_links
            (λ _, Page_shown [lit "https://example.com/b.pdf";
                              lit "https://example.com/a.pdf"] (Some true)) 2
          = [lit "https://example.com/a.pdf"; lit "https://example.com/b.pdf"])
    as E by (vm_compute; reflexivity).
  destruct (main_downloads_the_links_found
              {| input_file := None;
                 query := Some (lit "site:example.com filetype:pdf");
                 pages := 2; download := true |}
              (λ _, Page_shown [lit "https://example.com/b.pdf";
                                lit "https://example.com/a.pdf"] (Some true))
              csv_server (λ _, None) ∅) as (run & H1 & H2).
  - reflexivity.
  - reflexivity.
  - reflexivity.
  - cbn [pages]. rewrite E.
    constructor; [|constructor; [|constructor]];
      (split; [discriminate|]);
      (split; [apply mem_false; vm_compute; reflexivity|]);
      (split; [apply mem_false; vm_compute; reflexivity|]);
      split; intros c [= <-]; reflexivity.
  - cbn [pages] in H1, H2. rewrite E in H1, H2.
    exists run. split; [exact H1|exact H2].
Defined.

(** X19.  With [--input-file] no search is made: whatever the query
    and the browser, the URLs requested are the lines of that file that
    are not blank, stripped, in their order; none when the file does
    not exist. *)
Theorem main_input_file_skips_search a browser fetch read_text dir f :
  input_file a = Some f → f ≠ [] →
  requested (main a browser fetch read_text dir)
  = match read_text f with
    | Some content => read_urls (file_lines content)
    | None => []
    end.
Proof.
  intros Hf Hne. unfold main. rewrite Hf. destruct f as [|c f]; [done|].
  cbn [requested]. destruct (read_text (c :: f)) as [content|]; [|done].
  cbn [fmap option_fmap option_map]. apply download_files_requests.
Qed.

Lemma main_input_file_skips_search_witness :
  requested
    (main {| input_file := Some (lit "file_links.txt"); query := None;
             pages := 10; download := false |}
       (λ _, Page_error) csv_server
       (λ _, Some (lit "https://a.example/x.pdf" ++ [13; 10; 10]
                   ++ lit "  https://b.example/y.zip"))
       ∅)
  = read_urls (file_lines (lit "https://a.example/x.pdf" ++ [13; 10; 10]
                           ++ lit "  https://b.example/y.zip")).
Proof.
  apply (main_input_file_skips_search
           {| input_file := Some (lit "file_links.txt"); query := None;
              pages := 10; download := false |}
           (λ _, Page_error) csv_server
           (λ _, Some (lit "https://a.example/x.pdf" ++ [13; 10; 10]
                       ++ lit "  https://b.example/y.zip"))
           ∅ (lit "file_links.txt")).
  - reflexivity.
  - discriminate.
Defined.


(** ** More on the resolved name *)

Lemma basename_slash t : Path.basename (t ++ [47]) = [].
Proof.
  unfold Path.basename. rewrite (rfind_last 47 t []) by apply not_elem_of_nil.
  replace (Z.to_nat (Z.of_nat (length t) + 1)) with (length (t ++ [47])).
  - apply drop_all.
  - rewrite length_app. cbn. lia.
Qed.

(** X20.  A URL whose path ends in a slash has no last segment: when
    the server declares no name either, the file gets the synthesized
    name. *)
Theorem slash_url_gets_fallback_name url idx r parsed t :
  content_disposition r = [] →
  Url.urlparse url = Some parsed →
  Url.p_path parsed = t ++ [47] →
  resolve_filename url idx r
  = Some (lit "file_" ++ Str.of_int idx ++ expected_ext (content_type r)).
Proof.
  intros Hcd Hparse Hpath.
  apply (resolve_filename_fallback url idx r []); [|apply not_elem_of_nil].
  unfold raw_filename, header_filename, url_filename.
  rewrite Hcd, Hparse, Hpath, basename_slash. reflexivity.
Qed.

Lemma slash_url_gets_fallback_name_witness :
  resolve_filename (lit "https://example.com/reports/?year=2024") 3
    {| content_disposition := []; content_type := lit "text/csv; charset=utf-8";
       content_length := Some 0%Z; chunks := []; stream_ok := true |}
  = Some (lit "file_" ++ Str.of_int 3
          ++ expected_ext (lit "text/csv; charset=utf-8")).
Proof.
  apply (slash_url_gets_fallback_name
           (lit "https://example.com/reports/?year=2024") 3
           {| content_disposition := [];
              content_type := lit "text/csv; charset=utf-8";
              content_length := Some 0%Z; chunks := []; stream_ok := true |}
           {| Url.p_scheme := lit "https"; Url.p_netloc := lit "example.com";
              Url.p_path := lit "/reports/"; Url.p_params := [];
              Url.p_query := lit "year=2024"; Url.p_fragment := [] |}
           (lit "/reports")).
  - reflexivity.
  - vm_compute. reflexivity.
  - reflexivity.
Defined.

(** X21.  A clean name with an extension that is not one of the five
    dynamic ones is used as it is, whatever the content type says: no
    other mismatch of extension and type is reconciled. *)
Theorem other_extension_kept url idx r filename :
  raw_filename url r = Some filename →
  sanitized filename →
  46 ∈ filename →
  Str.lower (Path.splitext filename).2 ∉ dynamic_exts →
  resolve_filename url idx r = Some filename.
Proof.
  intros Hraw Hs Hdot Hdyn. unfold resolve_filename. rewrite Hraw.
  assert (reconcile_ext filename (expected_ext (content_type r)) = filename) as ->.
  { unfold reconcile_ext. rewrite (bool_decide_eq_false_2 _ Hdyn), andb_false_r.
    by destruct (_ && _)%bool. }
  destruct Hs as (Hchars & Hne & Hrest).
  rewrite (bool_decide_eq_false_2 _ Hne).
  apply mem_spec in Hdot. rewrite Hdot. cbn [negb orb].
  by rewrite sanitized_fixed.
Qed.

Lemma other_extension_kept_witness :
  resolve_filename (lit "https://example.com/img/photo.png") 1
    {| content_disposition := []; content_type := lit "image/jpeg";
       content_length := Some 0%Z; chunks := []; stream_ok := true |}
  = Some (lit "photo.png").
Proof.
  apply (other_extension_kept (lit "https://example.com/img/photo.png") 1
           {| content_disposition := []; content_type := lit "image/jpeg";
              content_length := Some 0%Z; chunks := []; stream_ok := true |}
           (lit "photo.png")).
  - vm_compute. reflexivity.
  - split; [|split; [|split; [|split]]].
    + intros c Hc. change (lit "photo.png")
        with [112; 104; 111; 116; 111; 46; 112; 110; 103] in Hc.
      repeat (apply elem_of_cons in Hc as [->|Hc]; [split; [reflexivity|lia]|]).
      by apply elem_of_nil in Hc.
    + discriminate.
    + intros c [= <-]. reflexivity.
    + intros c [= <-]. reflexivity.
    + vm_compute. reflexivity.
  - apply mem_spec. vm_compute. reflexivity.
  - apply (bool_decide_unpack _). vm_compute. exact I.
Defined.

Lemma split_once_app c l r : c ∉ l → Str.split_once c (l ++ c :: r) = Some (l, r).
Proof.
  induction l as [|a l IH]; cbn [app Str.split_once].
  - by rewrite N.eqb_refl.
  - rewrite not_elem_of_cons. intros [Hne Hl].
    destruct (N.eqb_spec a c); [congruence|]. by rewrite IH.
Qed.

Lemma split_once_not_in c l : c ∉ l → Str.split_once c l = None.
Proof.
  induction l as [|a l IH]; [done|]. rewrite not_elem_of_cons. intros [Hne Hl].
  cbn [Str.split_once]. destruct (N.eqb_spec a c); [congruence|].
  by rewrite IH.
Qed.

(** X22.  The parameters of a content type do not change the
    extension expected: what follows the first semicolon is ignored. *)
Theorem expected_ext_ignores_parameters ct params :
  59 ∉ ct → expected_ext (ct ++ 59 :: params) = expected_ext ct.
Proof.
  intros H. unfold expected_ext.
  by rewrite (split_once_app 59 ct params H), (split_once_not_in 59 ct H).
Qed.

Lemma expected_ext_ignores_parameters_witness :
  expected_ext (lit "Application/PDF " ++ 59 :: lit " charset=binary")
  = expected_ext (lit "Application/PDF ").
Proof.
  apply expected_ext_ignores_parameters. apply mem_false. vm_compute. reflexivity.
Defined.


(** ** The name in the [Content-Disposition] header *)

Lemma search_lit_absent c t r s :
  c ∈ t → c ∉ s → Re.search (Re.Cat (Re.Lit t) r) s = None.
Proof.
  intros Ht. induction s as [|a s IH]; intros Hs.
  - cbn [Re.search Re.matches].
    destruct (Str.startswith [] t) eqn:E; [|done].
    apply startswith_spec in E as (u & Hu). destruct t; [|done].
    by apply elem_of_nil in Ht.
  - cbn [Re.search Re.matches].
    destruct (Str.startswith (a :: s) t) eqn:E.
    + apply startswith_spec in E as (u & Hu). exfalso. apply Hs.
      rewrite Hu. apply elem_of_app. by left.
    + cbn [flat_map]. apply IH. intros H. apply Hs. by right.
Qed.

Lemma search_lit_skip c t r pre s :
  c ∉ pre →
  Re.search (Re.Cat (Re.Lit (c :: t)) r) (pre ++ s)
  = Re.search (Re.Cat (Re.Lit (c :: t)) r) s.
Proof.
  induction pre as [|a pre IH]; [done|]. rewrite not_elem_of_cons.
  intros [Hne Hpre]. cbn [app Re.search Re.matches Str.startswith].
  destruct (N.eqb_spec c a); [congruence|]. cbn [andb flat_map].
  by apply IH.
Qed.

Lemma matches_lit_prefix t s : Re.matches (Re.Lit t) (t ++ s) = [(s, None)].
Proof.
  cbn [Re.matches].
  assert (Str.startswith (t ++ s) t = true) as ->
    by (apply startswith_spec; by exists s).
  by rewrite drop_app_length.
Qed.

(** A group [([...]+)] takes the characters of its class up to the
    first one outside. *)
Lemma matches_group_run f target tail :
  target ≠ [] → Forall (λ c, f c = true) target →
  match tail with [] => True | c :: _ => f c = false end →
  ∃ l, Re.matches (Re.Grp (Re.Rep f 1 None)) (target ++ tail)
       = (tail, Some target) :: l.
Proof.
  intros Hne Hall Htail. cbn [Re.matches]. rewrite run_unbounded.
  destruct (take_while_app f target tail Hall Htail) as [-> _].
  destruct (counts_down_head (length target) 1) as (l & ->).
  { destruct target; [done|cbn; lia]. }
  { destruct target; [done|cbn; lia]. }
  cbn [map fst]. eexists. f_equal. rewrite drop_app_length. f_equal. f_equal.
  rewrite length_app.
  replace (length target + length tail - length tail)%nat with (length target)
    by lia.
  by rewrite take_app_length.
Qed.

Lemma scan_ascii s :
  Forall (λ c, c < 128) s → Utf8.scan Utf8.Start s = map Some s.
Proof.
  induction 1 as [|c s Hc Hs IH]; [done|].
  cbn [Utf8.scan map]. unfold Utf8.lead.
  destruct (N.ltb_spec c 128); [|lia]. cbn [app]. by rewrite IH.
Qed.

Lemma latin1_as_utf8_ascii s :
  Forall (λ c, c < 128) s → latin1_as_utf8 s = Some s.
Proof.
  intros H. unfold latin1_as_utf8.
  assert (forallb (λ c, c <=? 255) s = true) as ->.
  { apply forallb_forall. intros c Hc. apply N.leb_le.
    rewrite Forall_forall in H. apply list_elem_of_In, H in Hc. lia. }
  unfold Utf8.decode_strict. rewrite (scan_ascii s H).
  clear H. induction s as [|c s IH]; [done|].
  cbn [map mapM]. rewrite IH. done.
Qed.

(** X23.  A [filename=] parameter of ASCII characters, bare or within
    quotes of either kind, is the declared name: the text up to the
    next quote, semicolon or end of the header, when the header has no
    asterisk (so no [filename*=] form) and no [f] before the
    parameter. *)
Theorem header_filename_plain pre q name tail :
  102 ∉ pre →
  42 ∉ pre ++ q ++ name ++ tail →
  q = [] ∨ q = [34] ∨ q = [39] →
  name ≠ [] →
  Forall (λ c, c < 128 ∧ is_quote c = false ∧ c ≠ 59) name →
  match tail with [] => True | c :: _ => is_quote c = true ∨ c = 59 end →
  header_filename (pre ++ lit "filename=" ++ q ++ name ++ tail) = Some name.
Proof.
  intros Hpre Hstar Hq Hne Hname Htail. unfold header_filename.
  rewrite bool_decide_eq_false_2.
  2:{ intros H. apply (f_equal length) in H. rewrite !length_app in H.
      cbn in H. lia. }
  assert (Re.search filename_star (pre ++ lit "filename=" ++ q ++ name ++ tail)
          = None) as Hs.
  { apply (search_lit_absent 42).
    - apply (bool_decide_unpack _). vm_compute. exact I.
    - rewrite !elem_of_app in *. intros [H|[H|H]]; [tauto| |tauto].
      revert H. change (lit "filename=")
        with [102; 105; 108; 101; 110; 97; 109; 101; 61].
      rewrite !elem_of_cons, elem_of_nil. intuition discriminate. }
  unfold Re.group1 at 1. rewrite Hs.
  assert (Forall (λ c, negb (is_quote c || (c =? 59)) = true) name) as Hcls.
  { eapply Forall_impl; [exact Hname|]. intros c (_ & Hc1 & Hc2). cbn beta.
    rewrite Hc1. by destruct (N.eqb_spec c 59). }
  destruct (matches_group_run (λ c, negb (is_quote c || (c =? 59))) name tail)
    as (l3 & H3); [done|done| |].
  { destruct tail as [|c tail]; [done|]. apply negb_false_iff.
    destruct Htail as [->| ->]; [done|]. by rewrite orb_true_r. }
  assert (∃ l, Re.matches (Re.Opt (Re.Cls is_quote)) (q ++ name ++ tail)
               = (name ++ tail, None) :: l) as (l2 & H2).
  { destruct name as [|a name]; [done|]. apply Forall_cons in Hname as [(_ & Ha & _) _].
    destruct Hq as [->|[->| ->]]; cbn [app Re.matches];
      [rewrite Ha|..]; by eexists. }
  destruct (matches_cat_head _ _ _ _ _ _ _ H2 H3) as (l23 & H23).
  destruct (matches_cat_head _ _ _ _ _ _ _
              (matches_lit_prefix (lit "filename=") (q ++ name ++ tail)) H23)
    as (l & H).
  unfold Re.group1, filename_plain.
  change (lit "filename=") with (102 :: lit "ilename=") at 1.
  rewrite search_lit_skip by done.
  change (102 :: lit "ilename=") with (lit "filename=").
  rewrite (search_here _ _ _ _ H). cbn [fst snd].
  rewrite strip_id.
  - by rewrite latin1_as_utf8_ascii by (eapply Forall_impl; [exact Hname|]; tauto).
  - intros c Hc. destruct name as [|a name]; [done|]. injection Hc as ->.
    by apply Forall_cons in Hname as [(_ & Ha & _) _].
  - intros c Hc. apply last_Some in Hc as (p & ->).
    apply Forall_app in Hname as [_ Hc].
    by apply Forall_cons in Hc as [(_ & Hc & _) _].
Qed.

Lemma header_filename_plain_witness :
  header_filename (lit "attachment; " ++ lit "filename=" ++ [34]
                   ++ lit "annual report.pdf" ++ 34 :: lit "; size=12")
  = Some (lit "annual report.pdf").
Proof.
  apply (header_filename_plain (lit "attachment; ") [34]
           (lit "annual report.pdf") (34 :: lit "; size=12")).
  - apply (bool_decide_unpack _). vm_compute. exact I.
  - apply (bool_decide_unpack _). vm_compute. exact I.
  - right. left. reflexivity.
  - discriminate.
  - apply (bool_decide_unpack _). vm_compute. exact I.
  - left. reflexivity.
Defined.


(** ** The files a run leaves *)

Lemma failure_names_app tr1 tr2 :
  failure_names (tr1 ++ tr2) = failure_names tr1 ++ failure_names tr2.
Proof.
  induction tr1 as [|e tr1 IH]; [done|]. destruct e; cbn; by rewrite ?IH.
Qed.

Lemma named_log dir e st :
  named dir st → named dir (log e st).
Proof.
  intros H g Hg. cbn [log files trace] in *.
  rewrite ok_lines_app, failure_names_app, fmap_app, !elem_of_app.
  destruct (H g Hg) as [?|[?|?]]; auto.
Qed.

Lemma named_write dir name e st :
  named dir st →
  name ∈ (ok_lines e).*1 ∨ name ∈ failure_names e →
  ∀ data st',
    files st' = <[ name := data ]> (files st) →
    trace st' = trace st ++ e →
    named dir st'.
Proof.
  intros H Hname data st' Hf Ht g Hg. rewrite Hf, dom_insert_L in Hg.
  rewrite Ht, ok_lines_app, failure_names_app, fmap_app, !elem_of_app.
  apply elem_of_union in Hg as [Hg|Hg].
  - apply elem_of_singleton in Hg as ->. destruct Hname; auto.
  - destruct (H g Hg) as [?|[?|?]]; auto.
Qed.

Lemma named_step dir fetch idx url st :
  named dir st → named dir (download_one fetch idx url st).
Proof.
  intros H. unfold download_one.
  destruct (fetch url) as [|r].
  { by apply named_log, named_log. }
  destruct (resolve_filename url idx r) as [filename|].
  2:{ by apply named_log, named_log. }
  destruct (unique_filename _ filename) as [name|].
  2:{ by apply named_log. }
  destruct (content_length r).
  2:{ by apply named_log, named_log. }
  destruct (stream_ok r).
  - apply (named_write dir name
             [Http_get url; Line_ok name (N.of_nat (length (concat (chunks r))))]
             st H) with (data := concat (chunks r)).
    + left. cbn. by left.
    + reflexivity.
    + cbn. by rewrite <- app_assoc.
  - apply (named_write dir name [Http_get url; Line_failed name] st H)
      with (data := concat (chunks r)).
    + right. cbn. by left.
    + reflexivity.
    + cbn. by rewrite <- app_assoc.
Qed.

Lemma named_all dir fetch urls :
  ∀ idx st, named dir st → named dir (download_all fetch idx urls st).
Proof.
  induction urls as [|url urls IH]; intros idx st H; [done|].
  cbn [download_all]. by apply IH, named_step.
Qed.

Lemma named_download_files input fetch dir :
  named dir (download_files input fetch dir).
Proof.
  assert (named dir {| files := dir; success_count := 0; failed_count := 0;
                       total_bytes := 0; file_types := ∅; trace := [Mkdir] |})
    as Hinit by (intros g Hg; by left).
  unfold download_files. destruct input as [lines|].
  - destruct (bool_decide _).
    + by apply named_log.
    + by apply named_log, named_all, named_log.
  - by apply named_log.
Qed.

(** X24.  A run leaves no file that it does not name: a file in the
    output directory at the end was there before the run, with this
    content, or a line of the run shows its name, as downloaded or as
    failed (what a stream delivered before it broke stays under the
    name chosen). *)
Theorem download_files_names_every_file input fetch dir g data :
  files (download_files input fetch dir) !! g = Some data →
  dir !! g = Some data
  ∨ g ∈ (ok_lines (trace (download_files input fetch dir))).*1
  ∨ g ∈ failure_names (trace (download_files input fetch dir)).
Proof.
  intros Hg.
  destruct (named_download_files input fetch dir g) as [Hdir|H]; [|left|by right].
  { apply elem_of_dom. by eexists. }
  apply elem_of_dom in Hdir as (d & Hd).
  destruct (accounted_download_files input fetch dir)
    as (_ & _ & _ & _ & _ & _ & _ & Hkeep).
  apply Hkeep in Hd as Hd'. congruence.
Qed.

Lemma download_files_names_every_file_witness :
  (∅ : gmap pystr (list N)) !! lit "data.csv" = Some [1; 2; 3]
  ∨ lit "data.csv"
    ∈ (ok_lines (trace (download_files (Some [lit "http://a.example/data.csv"])
          (λ _, Response {| content_disposition := []; content_type := lit "text/csv";
                            content_length := Some 10%Z; chunks := [[1; 2; 3]];
                            stream_ok := false |}) ∅))).*1
  ∨ lit "data.csv"
    ∈ failure_names (trace (download_files (Some [lit "http://a.example/data.csv"])
          (λ _, Response {| content_disposition := []; content_type := lit "text/csv";
                            content_length := Some 10%Z; chunks := [[1; 2; 3]];
                            stream_ok := false |}) ∅)).
Proof.
  apply (download_files_names_every_file
           (Some [lit "http://a.example/data.csv"])
           (λ _, Response {| content_disposition := []; content_type := lit "text/csv";
                             content_length := Some 10%Z; chunks := [[1; 2; 3]];
                             stream_ok := false |}) ∅ (lit "data.csv") [1; 2; 3]).
  vm_compute. reflexivity.
Defined.
